(** * Snakes on a Plane: occupancy-aware movement on a bounded lattice

    A shallow embedding of [snake_simulation_modified.py]: the [Snake]
    class (constructor and [move]) and the [Grid] class (constructor and
    [go]).  Python integers are [Z]; numpy arrays of coordinates are
    [list Z]; the boolean occupancy array is a list of rows; Python
    exceptions are the error side of [result]; the random draw of
    [random.choice] is an explicit argument. *)

From Stdlib Require Import ZArith Lia.
From stdpp Require Import base decidable countable list gmap strings.

Open Scope Z_scope.

(** ** Exceptions and the error monad *)

Inductive exn : Set :=
| IndexError
| ZeroDivisionError
| ValueError.

Inductive result (A : Type) : Type :=
| Ok (a : A)
| Raise (e : exn).

Arguments Ok {A} a.
Arguments Raise {A} e.

#[global] Instance result_ret : MRet result := fun A a => Ok a.

#[global] Instance result_bind : MBind result := fun A B k m =>
  match m with
  | Ok a => k a
  | Raise e => Raise e
  end.

Definition is_ok {A : Type} (m : result A) : bool :=
  match m with Ok _ => true | Raise _ => false end.

(** ** Python operators *)

(** [a % b] on Python integers: floor modulo, the result takes the sign of
    the divisor; a zero divisor raises. *)
Definition pymod (a b : Z) : result Z :=
  if Z.eqb b 0 then Raise ZeroDivisionError else Ok (a mod b).

(** [a or b] and [a and b] where [a] is a comparison and [b] an array read
    that is only evaluated when [a] does not decide the outcome. *)
Definition or_else (a : bool) (b : result bool) : result bool :=
  if a then Ok true else b.

Definition and_then (a : bool) (b : result bool) : result bool :=
  if a then b else Ok false.

(** [a or b] where [a] itself may raise. *)
Definition or_else_r (a b : result bool) : result bool :=
  c ← a; if (c : bool) then Ok true else b.

(** ** numpy arrays *)

(** An index [i] into an axis of size [n]: valid for [-n <= i < n], a
    negative index counting from the end. *)
Definition norm_index (n : nat) (i : Z) : result nat :=
  if (0 <=? i) && (i <? Z.of_nat n) then Ok (Z.to_nat i)
  else if (- Z.of_nat n <=? i) && (i <? 0) then Ok (Z.to_nat (Z.of_nat n + i))
  else Raise IndexError.

(** [np.arange(start, stop, step)] for integer arguments. *)
Definition arange (start stop step : Z) : list Z :=
  let n := Z.to_nat (- ((- (stop - start)) / step)) in
  (fun k : nat => start + Z.of_nat k * step) <$> seq 0 n.

(** [[x] * n] *)
Definition list_repeat (x : Z) (n : Z) : list Z := replicate (Z.to_nat n) x.

(** [np.append(x, arr)] with a scalar [x]. *)
Definition np_append (x : Z) (arr : list Z) : list Z := x :: arr.

(** [np.delete(arr, i)] *)
Definition np_delete (arr : list Z) (i : Z) : result (list Z) :=
  k ← norm_index (length arr) i; Ok (delete k arr).

(** [arr[i]] on a one-dimensional array. *)
Definition getitem1 (arr : list Z) (i : Z) : result Z :=
  k ← norm_index (length arr) i;
  match arr !! k with
  | Some v => Ok v
  | None => Raise IndexError
  end.

(** The occupancy array: a two-dimensional boolean array, stored as its
    list of rows (first axis x, second axis y). *)
Abbreviation ndarray := (list (list bool)) (only parsing).

(** [np.zeros([n0, n1], dtype = bool)] *)
Definition np_zeros (n0 n1 : Z) : result ndarray :=
  if (n0 <? 0) || (n1 <? 0) then Raise ValueError
  else Ok (replicate (Z.to_nat n0) (replicate (Z.to_nat n1) false)).

(** [arr[i, j]] *)
Definition getitem (arr : ndarray) (i j : Z) : result bool :=
  i' ← norm_index (length arr) i;
  match arr !! i' with
  | None => Raise IndexError
  | Some row =>
      j' ← norm_index (length row) j;
      match row !! j' with
      | None => Raise IndexError
      | Some b => Ok b
      end
  end.

(** [arr[i, j] = v] *)
Definition setitem (arr : ndarray) (i j : Z) (v : bool) : result ndarray :=
  i' ← norm_index (length arr) i;
  match arr !! i' with
  | None => Raise IndexError
  | Some row =>
      j' ← norm_index (length row) j;
      Ok (<[i' := <[j' := v]> row]> arr)
  end.

(** The pairs addressed by [arr[xs, ys]] for two index arrays: equal
    lengths pair up, an array of length one is broadcast, anything else
    is a shape mismatch (an [IndexError] in numpy). *)
Definition broadcast (xs ys : list Z) : result (list (Z * Z)) :=
  if Nat.eqb (length xs) (length ys) then Ok (zip xs ys)
  else match xs, ys with
       | [x], _ => Ok ((fun y => (x, y)) <$> ys)
       | _, [y] => Ok ((fun x => (x, y)) <$> xs)
       | _, _ => Raise IndexError
       end.

Fixpoint setitems (arr : ndarray) (ps : list (Z * Z)) (v : bool) : result ndarray :=
  match ps with
  | [] => Ok arr
  | (i, j) :: ps' => arr' ← setitem arr i j v; setitems arr' ps' v
  end.

(** [arr[xs, ys] = v] *)
Definition setitem_fancy (arr : ndarray) (xs ys : list Z) (v : bool) : result ndarray :=
  ps ← broadcast xs ys; setitems arr ps v.

(** An array has shape [(n0, n1)]. *)
Definition has_shape (arr : ndarray) (n0 n1 : Z) : Prop :=
  Z.of_nat (length arr) = n0 /\ Forall (fun row => Z.of_nat (length row) = n1) arr.

(** ** Directions *)

Inductive Direction : Set := north | east | south | west.

#[global] Instance Direction_eq_dec : EqDecision Direction.
Proof. solve_decision. Defined.

#[global] Instance Direction_countable : Countable Direction.
Proof.
  refine (inj_countable'
    (fun d => match d with north => 0%nat | east => 1%nat | south => 2%nat | west => 3%nat end)
    (fun n => match n with 0%nat => north | 1%nat => east | 2%nat => south | _ => west end) _).
  intros []; reflexivity.
Defined.

(** [{'north', 'east', 'south', 'west'}] *)
Definition all_directions : gset Direction := {[north; east; south; west]}.

(** [random.choice(seq)] with the raw draw [r] made explicit: the element
    at position [r mod len(seq)]. *)
Definition random_choice {A : Type} (l : list A) (r : nat) : result A :=
  match l !! (r mod length l)%nat with
  | Some a => Ok a
  | None => Raise IndexError
  end.

(** ** Snake *)

Record Snake : Type := mkSnake {
  xpos : Z;
  ypos : Z;
  linexpos : list Z;
  lineypos : list Z;
  symbol : string;
  color : string;
  orientation : Direction;
  snake_length : Z;
  direction : option Direction;
  trapped : bool
}.

Definition set_xpos (v : Z) (s : Snake) : Snake :=
  mkSnake v (ypos s) (linexpos s) (lineypos s) (symbol s) (color s)
          (orientation s) (snake_length s) (direction s) (trapped s).
Definition set_ypos (v : Z) (s : Snake) : Snake :=
  mkSnake (xpos s) v (linexpos s) (lineypos s) (symbol s) (color s)
          (orientation s) (snake_length s) (direction s) (trapped s).
Definition set_linexpos (v : list Z) (s : Snake) : Snake :=
  mkSnake (xpos s) (ypos s) v (lineypos s) (symbol s) (color s)
          (orientation s) (snake_length s) (direction s) (trapped s).
Definition set_lineypos (v : list Z) (s : Snake) : Snake :=
  mkSnake (xpos s) (ypos s) (linexpos s) v (symbol s) (color s)
          (orientation s) (snake_length s) (direction s) (trapped s).
Definition set_direction (v : option Direction) (s : Snake) : Snake :=
  mkSnake (xpos s) (ypos s) (linexpos s) (lineypos s) (symbol s) (color s)
          (orientation s) (snake_length s) v (trapped s).
Definition set_trapped (v : bool) (s : Snake) : Snake :=
  mkSnake (xpos s) (ypos s) (linexpos s) (lineypos s) (symbol s) (color s)
          (orientation s) (snake_length s) (direction s) v.

(** [Snake.__init__]: the four orientations of the constructor's
    [if]/[elif] chain.  The body is laid out backward from the head. *)
Definition Snake_init (position : Z * Z) (symbol color : string)
    (orientation : Direction) (length : Z) : Snake :=
  let '(lx, ly) :=
    match orientation with
    | north => (list_repeat (fst position) length,
                arange (snd position) (snd position - length) (-1))
    | south => (list_repeat (fst position) length,
                arange (snd position) (snd position + length) 1)
    | east => (arange (fst position) (fst position - length) (-1),
               list_repeat (snd position) length)
    | west => (arange (fst position) (fst position + length) 1,
               list_repeat (snd position) length)
    end in
  mkSnake (fst position) (snd position) lx ly symbol color orientation length
          None false.

(** [if c: disallowed.add(d)] *)
Definition add_if (c : bool) (d : Direction) (dis : gset Direction) : gset Direction :=
  if c then dis ∪ {[d]} else dis.

(** The first half of [Snake.move]: the set of disallowed directions. *)
Definition disallowed_directions (xmax ymax : Z) (bc : string)
    (occupied : ndarray) (s : Snake) : result (gset Direction) :=
  if String.eqb bc "wall" then
    cn ← or_else (ypos s =? ymax) (getitem occupied (xpos s) (ypos s + 1));
    ce ← or_else (xpos s =? xmax) (getitem occupied (xpos s + 1) (ypos s));
    cs ← or_else (ypos s =? 0) (getitem occupied (xpos s) (ypos s - 1));
    cw ← or_else (xpos s =? 0) (getitem occupied (xpos s - 1) (ypos s));
    Ok (add_if cw west (add_if cs south (add_if ce east (add_if cn north ∅))))
  else if String.eqb bc "periodic" then
    cn ← or_else_r
            (and_then (ypos s =? ymax)
               (j ← pymod (ypos s + 1) ymax; getitem occupied (xpos s) j))
            (and_then (ypos s <? ymax) (getitem occupied (xpos s) (ypos s + 1)));
    ce ← or_else_r
            (and_then (xpos s =? xmax)
               (i ← pymod (xpos s + 1) xmax; getitem occupied i (ypos s)))
            (and_then (xpos s <? xmax) (getitem occupied (xpos s + 1) (ypos s)));
    cs ← or_else_r
            (and_then (ypos s =? 0)
               (j ← pymod (ypos s - 1) ymax; getitem occupied (xpos s) j))
            (and_then (0 <? ypos s) (getitem occupied (xpos s) (ypos s - 1)));
    cw ← or_else_r
            (and_then (xpos s =? 0)
               (i ← pymod (xpos s - 1) xmax; getitem occupied i (ypos s)))
            (and_then (0 <? xpos s) (getitem occupied (xpos s - 1) (ypos s)));
    Ok (add_if cw west (add_if cs south (add_if ce east (add_if cn north ∅))))
  else Ok ∅.

(** [allowed = {'north', 'east', 'south', 'west'}.difference(disallowed)] *)
Definition allowed_directions (xmax ymax : Z) (bc : string)
    (occupied : ndarray) (s : Snake) : result (gset Direction) :=
  disallowed ← disallowed_directions xmax ymax bc occupied s;
  Ok (all_directions ∖ disallowed).

(** The head update for the chosen direction. *)
Definition apply_direction (xmax ymax : Z) (bc : string) (d : Direction)
    (s : Snake) : Snake :=
  let wall := String.eqb bc "wall" in
  let periodic := String.eqb bc "periodic" in
  match d with
  | north => if (wall && (ypos s <? ymax)) || periodic
             then set_ypos (ypos s + 1) s else s
  | east => if (wall && (xpos s <? xmax)) || periodic
            then set_xpos (xpos s + 1) s else s
  | south => if (wall && (0 <? ypos s)) || periodic
             then set_ypos (ypos s - 1) s else s
  | west => if (wall && (0 <? xpos s)) || periodic
            then set_xpos (xpos s - 1) s else s
  end.

(** The body update: prepend the head, drop the last element. *)
Definition advance_body (s : Snake) : result Snake :=
  let lx := np_append (xpos s) (linexpos s) in
  let ly := np_append (ypos s) (lineypos s) in
  lx' ← np_delete lx (-1);
  ly' ← np_delete ly (-1);
  Ok (set_lineypos ly' (set_linexpos lx' s)).

(** The final modulo on the head, skipped for a coordinate equal to the
    maximum. *)
Definition normalize_head (xmax ymax : Z) (s : Snake) : result Snake :=
  x ← (if negb (xpos s =? xmax) then pymod (xpos s) xmax else Ok (xpos s));
  let s := set_xpos x s in
  y ← (if negb (ypos s =? ymax) then pymod (ypos s) ymax else Ok (ypos s));
  Ok (set_ypos y s).

(** The value the final modulo leaves in a coordinate [v] on an axis with
    maximum [max] (when the modulo does not raise). *)
Definition normalized (max v : Z) : Z := if v =? max then v else v mod max.

(** [Snake.move(xmax, ymax, bc, occupied)], with the draw [r] of
    [random.choice]. *)
Definition move (xmax ymax : Z) (bc : string) (occupied : ndarray) (r : nat)
    (s : Snake) : result Snake :=
  allowed ← allowed_directions xmax ymax bc occupied s;
  if Nat.eqb (size allowed) 0 then Ok (set_trapped true s)
  else
    d ← random_choice (elements allowed) r;
    let s := set_direction (Some d) s in
    let s := apply_direction xmax ymax bc d s in
    s ← advance_body s;
    normalize_head xmax ymax s.

(** A sequence of calls of [move] on one snake, each with the occupancy
    array and the draw of that call. *)
Fixpoint moves (xmax ymax : Z) (bc : string) (calls : list (ndarray * nat))
    (s : Snake) : result Snake :=
  match calls with
  | [] => Ok s
  | (occ, r) :: calls' => s' ← move xmax ymax bc occ r s; moves xmax ymax bc calls' s'
  end.

(** The head lies on the lattice. *)
Definition in_bounds (xmax ymax : Z) (s : Snake) : Prop :=
  0 <= xpos s <= xmax /\ 0 <= ypos s <= ymax.

(** ** Grid *)

(** The plot handles [point] and [lines] belong to the renderer and are
    left out; [pauses] counts the calls of [plt.pause], one per tick. *)
Record Grid : Type := mkGrid {
  snakes : list Snake;
  xmax : Z;
  ymax : Z;
  bc : string;
  nSteps : Z;
  occupied : ndarray;
  pauses : nat
}.

Definition set_bc (v : string) (g : Grid) : Grid :=
  mkGrid (snakes g) (xmax g) (ymax g) v (nSteps g) (occupied g) (pauses g).

(** The body of the constructor's loop over the snakes: mark the head and
    the body cells. *)
Definition mark_snake (occ : ndarray) (w : Snake) : result ndarray :=
  occ ← setitem occ (xpos w) (ypos w) true;
  setitem_fancy occ (linexpos w) (lineypos w) true.

Fixpoint mark_snakes (occ : ndarray) (ws : list Snake) : result ndarray :=
  match ws with
  | [] => Ok occ
  | w :: ws' => occ' ← mark_snake occ w; mark_snakes occ' ws'
  end.

(** [Grid.__init__(snakes, gridsize, bc, nSteps)] *)
Definition Grid_init (snakes : list Snake) (gridsize : Z * Z) (bc : string)
    (nSteps : Z) : result Grid :=
  let xmax := fst gridsize in
  let ymax := snd gridsize in
  occ ← np_zeros (xmax + 1) (ymax + 1);
  occ ← mark_snakes occ snakes;
  Ok (mkGrid snakes xmax ymax bc nSteps occ 0).

(** The mirror marking of [Grid.go] under the periodic policy. *)
Definition mirror_edges (xmax ymax : Z) (occ : ndarray) (w : Snake) : result ndarray :=
  occ ← (if xpos w =? xmax then setitem occ 0 (ypos w) true
         else if xpos w =? 0 then setitem occ xmax (ypos w) true
         else Ok occ);
  if ypos w =? ymax then setitem occ (xpos w) 0 true
  else if ypos w =? 0 then setitem occ (xpos w) ymax true
  else Ok occ.

(** The body of the loop over the snakes in [Grid.go], for one snake [w]
    and the draw [r] its [move] may use. *)
Definition step_snake (xmax ymax : Z) (bc : string) (occ : ndarray) (r : nat)
    (w : Snake) : result (Snake * ndarray) :=
  tx ← getitem1 (linexpos w) (-1);
  ty ← getitem1 (lineypos w) (-1);
  occ ← setitem occ tx ty false;
  w ← move xmax ymax bc occ r w;
  if negb (trapped w) then
    occ ← setitem occ (xpos w) (ypos w) true;
    occ ← setitem_fancy occ (linexpos w) (lineypos w) true;
    occ ← (if String.eqb bc "periodic" then mirror_edges xmax ymax occ w
           else Ok occ);
    Ok (w, occ)
  else Ok (w, occ).

(** [for i, w in enumerate(self.snakes)]: the snakes are updated in
    place, in order; [rand i] is the draw of snake [i]. *)
Fixpoint step_snakes (xmax ymax : Z) (bc : string) (rand : nat -> nat) (i : nat)
    (ws : list Snake) (occ : ndarray) : result (list Snake * ndarray) :=
  match ws with
  | [] => Ok ([], occ)
  | w :: ws' =>
      '(w', occ') ← step_snake xmax ymax bc occ (rand i) w;
      '(ws'', occ'') ← step_snakes xmax ymax bc rand (S i) ws' occ';
      Ok (w' :: ws'', occ'')
  end.

(** One iteration of [for j in range(self.nSteps)]: every snake, then
    [plt.pause]. *)
Definition tick (rand : nat -> nat) (g : Grid) : result Grid :=
  '(ws, occ) ← step_snakes (xmax g) (ymax g) (bc g) rand 0 (snakes g) (occupied g);
  Ok (mkGrid ws (xmax g) (ymax g) (bc g) (nSteps g) occ (S (pauses g))).

(** [n] ticks starting with tick number [j]; [rand j i] is the draw of
    snake [i] in tick [j]. *)
Fixpoint ticks (rand : nat -> nat -> nat) (j : nat) (n : nat) (g : Grid) : result Grid :=
  match n with
  | O => Ok g
  | S n' => g' ← tick (rand j) g; ticks rand (S j) n' g'
  end.

(** [all([w.trapped for w in self.snakes])] *)
Definition all_trapped (g : Grid) : bool := forallb trapped (snakes g).

(** [Grid.go()].  The [while] body ends in an unconditional [break], so
    its condition is tested once and the [for] loop over [range(nSteps)]
    runs at most once. *)
Definition go (rand : nat -> nat -> nat) (g : Grid) : result Grid :=
  if negb (all_trapped g) then ticks rand 0 (Z.to_nat (nSteps g)) g
  else Ok g.

(** The state of a wall grid in which every head is on the lattice. *)
Definition wall_grid_ok (g : Grid) : Prop :=
  bc g = "wall" /\ has_shape (occupied g) (xmax g + 1) (ymax g + 1) /\
  Forall (in_bounds (xmax g) (ymax g)) (snakes g).

(** Head and body of a snake lie on the lattice: the state in which the
    snakes of a wall grid are expected to be. *)
Definition snake_on_lattice (xmax ymax : Z) (w : Snake) : Prop :=
  in_bounds xmax ymax w /\
  linexpos w <> [] /\ length (linexpos w) = length (lineypos w) /\
  Forall (fun x => 0 <= x <= xmax) (linexpos w) /\
  Forall (fun y => 0 <= y <= ymax) (lineypos w).

(** The state of a wall grid on which a run cannot raise. *)
Definition wall_grid_safe (g : Grid) : Prop :=
  bc g = "wall" /\ has_shape (occupied g) (xmax g + 1) (ymax g + 1) /\
  Forall (snake_on_lattice (xmax g) (ymax g)) (snakes g).

(** ** Concrete runs *)

(** The same draw for every snake in every tick. *)
Definition const_draws (r : nat) : nat -> nat -> nat := fun _ _ => r.

(** A snake of length 3 whose head is on the top edge [y = ymax] of a
    10 x 10 grid, and one whose head is on the right edge [x = xmax]. *)
Definition top_edge_snake : Snake := Snake_init (5, 10) "bo" "b" north 3.
Definition right_edge_snake : Snake := Snake_init (10, 5) "bo" "b" east 3.

(** Three snakes of length 1 on a 3 x 3 wall grid: one in the corner
    (0,0), the two others on its two neighbour cells. *)
Definition corner_snake : Snake := Snake_init (0, 0) "bo" "b" north 1.
Definition blocker_east : Snake := Snake_init (1, 0) "ro" "r" north 1.
Definition blocker_north : Snake := Snake_init (0, 1) "go" "g" north 1.

(** Draws under which, in the first tick, the two blockers step away
    from the corner (east and north), and in the second tick the second
    snake steps north. *)
Definition corner_draws (j i : nat) : nat :=
  match j, i with
  | 0%nat, 1%nat => 1%nat
  | 0%nat, 2%nat => 2%nat
  | 1%nat, 1%nat => 1%nat
  | _, _ => 0%nat
  end.

(** The occupancy array the constructor of [Grid] builds for the snakes
    [ws] (it depends neither on the policy nor on the step budget). *)
Definition initial_occupancy (ws : list Snake) (gridsize : Z * Z) : ndarray :=
  match Grid_init ws gridsize "wall" 0 with
  | Ok g => occupied g
  | Raise _ => []
  end.

(** A 3 x 3 occupancy array with only the centre cell occupied. *)
Definition centre_occupied : ndarray :=
  [[false; false; false]; [false; true; false]; [false; false; false]].

(** The three snakes of the main program. *)
Definition snec : Snake := Snake_init (5, 5) "bo" "b" north 5.
Definition snek : Snake := Snake_init (15, 15) "ro" "r" south 5.
Definition sneck : Snake := Snake_init (5, 15) "go" "g" east 5.

(** The unit step of a direction, as [(dx, dy)]. *)
Definition heading (d : Direction) : Z * Z :=
  match d with
  | north => (0, 1)
  | east => (1, 0)
  | south => (0, -1)
  | west => (-1, 0)
  end.

(** What a run keeps of a snake: a set flag stays set, and the two body
    arrays keep their lengths. *)
Definition kept (w w' : Snake) : Prop :=
  (trapped w = true -> trapped w' = true) /\
  length (linexpos w') = length (linexpos w) /\
  length (lineypos w') = length (lineypos w).


(** Under the wall policy, direction [d] is blocked for the snake [s]: the
    head is on the edge that limits [d], or the adjacent cell in that
    direction is marked occupied. *)
Definition blocked_wall (xmax ymax : Z) (occ : ndarray) (s : Snake) (d : Direction) : Prop :=
  match d with
  | north => ypos s = ymax \/ getitem occ (xpos s) (ypos s + 1) = Ok true
  | east => xpos s = xmax \/ getitem occ (xpos s + 1) (ypos s) = Ok true
  | south => ypos s = 0 \/ getitem occ (xpos s) (ypos s - 1) = Ok true
  | west => xpos s = 0 \/ getitem occ (xpos s - 1) (ypos s) = Ok true
  end.

(** * Properties *)

(** ** The error monad *)

Lemma bind_Ok {A B : Type} (m : result A) (k : A -> result B) (b : B) :
  m ≫= k = Ok b -> exists a, m = Ok a /\ k a = Ok b.
Proof. destruct m as [a|e]; simpl; [eauto | discriminate]. Qed.

Ltac inv_bind H :=
  let a := fresh "v" in
  let Ha := fresh "Hv" in
  apply bind_Ok in H; destruct H as (a & Ha & H).

Ltac zbool_in t :=
  match t with
  | context [(?a =? ?b)%Z] => destruct (Z.eqb_spec a b)
  | context [(?a <? ?b)%Z] => destruct (Z.ltb_spec a b)
  | context [(?a <=? ?b)%Z] => destruct (Z.leb_spec a b)
  end.

Ltac zbool :=
  repeat match goal with
  | |- ?G => zbool_in G
  | H : ?T |- _ => zbool_in T
  end.

(** ** Python modulo *)

Lemma pymod_small (a b : Z) : 0 <= a < b -> pymod a b = Ok a.
Proof.
  intros H. unfold pymod. zbool; [lia |].
  by rewrite Z.mod_small.
Qed.

Lemma pymod_succ_max (m : Z) : 2 <= m -> pymod (m + 1) m = Ok 1.
Proof.
  intros H. unfold pymod. zbool; [lia |].
  f_equal. replace (m + 1) with (1 + 1 * m) by lia.
  rewrite Z_mod_plus_full. apply Z.mod_small. lia.
Qed.

Lemma pymod_pred_zero (m : Z) : 2 <= m -> pymod (0 - 1) m = Ok (m - 1).
Proof.
  intros H. unfold pymod. zbool; [lia |].
  f_equal. replace (0 - 1) with ((m - 1) + (-1) * m) by lia.
  rewrite Z_mod_plus_full. apply Z.mod_small. lia.
Qed.

(** After a unit step, the final modulo never brings a coordinate back to
    where it was, on an axis of size at least 2. *)
Lemma step_mod_ne (m y v : Z) :
  2 <= m -> (v = y + 1 \/ v = y - 1) -> v <> m -> v mod m <> y.
Proof.
  intros Hm Hv Hne Heq.
  assert (Hb : 0 <= v mod m < m) by (apply Z.mod_pos_bound; lia).
  pose proof (Z.div_mod v m ltac:(lia)) as Hdm.
  rewrite Heq in Hdm. clear Hb Heq.
  generalize dependent (v / m). intros q Hq.
  assert (m * q = 1 \/ m * q = -1) as Hmq by lia.
  assert (q <= -1 \/ q = 0 \/ 1 <= q) as [Hq0|[Hq0|Hq1]] by lia.
  - assert (m * q <= m * (-1)) by (apply Z.mul_le_mono_nonneg_l; lia). lia.
  - subst q. lia.
  - assert (m * 1 <= m * q) by (apply Z.mul_le_mono_nonneg_l; lia). lia.
Qed.

(** A coordinate off the axis [0..m] is changed by the final modulo. *)
Lemma off_axis_mod_ne (m y : Z) : 0 < m -> ~ (0 <= y <= m) -> y mod m <> y.
Proof.
  intros Hm Hy Heq.
  pose proof (Z.mod_pos_bound y m Hm). lia.
Qed.

(** ** numpy indexing *)

Lemma norm_index_in_range (n : nat) (i : Z) :
  0 <= i < Z.of_nat n -> norm_index n i = Ok (Z.to_nat i).
Proof. intros H. unfold norm_index. zbool; simpl; try lia; reflexivity. Qed.

Lemma norm_index_last (n : nat) :
  norm_index (S n) (-1) = Ok n.
Proof.
  unfold norm_index. zbool; simpl; try lia.
  f_equal. lia.
Qed.

Lemma norm_index_lt (n : nat) (i : Z) (k : nat) :
  norm_index n i = Ok k -> (k < n)%nat.
Proof.
  unfold norm_index. intros H.
  zbool; simpl in H; try discriminate; inversion H; lia.
Qed.

Lemma getitem_in_range (occ : ndarray) (n0 n1 i j : Z) :
  has_shape occ n0 n1 -> 0 <= i < n0 -> 0 <= j < n1 ->
  exists b, getitem occ i j = Ok b.
Proof.
  intros [Hlen Hrows] Hi Hj. unfold getitem.
  rewrite norm_index_in_range by lia. simpl.
  destruct (occ !! Z.to_nat i) as [row|] eqn:Hrow.
  - assert (Z.of_nat (length row) = n1) as Hr
      by (eapply (proj1 (Forall_lookup _ _) Hrows); eauto).
    rewrite norm_index_in_range by lia. simpl.
    destruct (row !! Z.to_nat j) as [b|] eqn:Hb; [eauto |].
    apply lookup_ge_None in Hb. lia.
  - apply lookup_ge_None in Hrow. lia.
Qed.

Lemma np_delete_last (x : Z) (arr : list Z) :
  exists arr', np_delete (np_append x arr) (-1) = Ok arr' /\ length arr' = length arr.
Proof.
  unfold np_delete, np_append. simpl length.
  rewrite norm_index_last. simpl.
  eexists; split; [reflexivity |].
  rewrite length_delete; [simpl; lia |].
  apply lookup_lt_is_Some. simpl. lia.
Qed.

(** ** Construction *)

Lemma arange_length_down (p L : Z) :
  length (arange p (p - L) (-1)) = Z.to_nat L.
Proof.
  unfold arange. rewrite length_fmap, length_seq.
  f_equal. replace (- (p - L - p)) with L by lia.
  replace (L / -1) with (- L); [lia |].
  apply Z.div_unique_exact; lia.
Qed.

Lemma arange_length_up (p L : Z) :
  length (arange p (p + L) 1) = Z.to_nat L.
Proof.
  unfold arange. rewrite length_fmap, length_seq.
  f_equal. rewrite Z.div_1_r. lia.
Qed.

Lemma list_repeat_length (x L : Z) : length (list_repeat x L) = Z.to_nat L.
Proof. unfold list_repeat. apply length_replicate. Qed.

Lemma Snake_init_lengths (position : Z * Z) (sy co : string) (o : Direction) (L : Z) :
  length (linexpos (Snake_init position sy co o L)) = Z.to_nat L /\
  length (lineypos (Snake_init position sy co o L)) = Z.to_nat L.
Proof.
  destruct o; simpl;
    rewrite ?arange_length_down, ?arange_length_up, ?list_repeat_length; done.
Qed.

(** ** The random choice *)

Lemma random_choice_elem {A : Type} (l : list A) (r : nat) (a : A) :
  random_choice l r = Ok a -> a ∈ l.
Proof.
  unfold random_choice. destruct (l !! _) as [x|] eqn:Hl; [|discriminate].
  intros [= <-]. eapply list_elem_of_lookup_2; eauto.
Qed.

Lemma random_choice_nonempty {A : Type} (l : list A) (r : nat) :
  l <> [] -> exists a, random_choice l r = Ok a.
Proof.
  intros Hl. unfold random_choice.
  destruct (l !! (r mod length l)%nat) as [x|] eqn:Hx; [eauto |].
  apply lookup_ge_None in Hx.
  assert (length l <> 0%nat) by (destruct l; simpl; congruence).
  pose proof (Nat.mod_upper_bound r (length l)). lia.
Qed.

Lemma random_choice_allowed (a : gset Direction) (r : nat) (d : Direction) :
  random_choice (elements a) r = Ok d -> d ∈ a.
Proof. intros H. apply random_choice_elem in H. by apply elem_of_elements in H. Qed.

Lemma allowed_nonempty_choice (a : gset Direction) (r : nat) :
  size a <> 0%nat -> exists d, random_choice (elements a) r = Ok d.
Proof.
  intros Hs. apply random_choice_nonempty. intros Hnil.
  apply Hs. unfold size, set_size. simpl. by rewrite Hnil.
Qed.

(** ** The pieces of [move] *)

Lemma add_if_elem (c : bool) (d d' : Direction) (dis : gset Direction) :
  d' ∈ add_if c d dis <-> d' ∈ dis \/ (c = true /\ d' = d).
Proof.
  unfold add_if. destruct c; [rewrite elem_of_union, elem_of_singleton |];
    intuition congruence.
Qed.

Lemma disallowed_set_elem (cn ce cs cw : bool) (d : Direction) :
  d ∈ add_if cw west (add_if cs south (add_if ce east (add_if cn north ∅))) <->
  match d with north => cn | east => ce | south => cs | west => cw end = true.
Proof.
  rewrite !add_if_elem, elem_of_empty.
  destruct d, cn, ce, cs, cw; intuition congruence.
Qed.

Lemma advance_body_spec (s : Snake) :
  exists s', advance_body s = Ok s' /\
    xpos s' = xpos s /\ ypos s' = ypos s /\
    direction s' = direction s /\ trapped s' = trapped s /\
    length (linexpos s') = length (linexpos s) /\
    length (lineypos s') = length (lineypos s).
Proof.
  unfold advance_body.
  destruct (np_delete_last (xpos s) (linexpos s)) as (lx & -> & Hlx).
  destruct (np_delete_last (ypos s) (lineypos s)) as (ly & -> & Hly).
  simpl. eexists; split; [reflexivity |]. simpl. repeat split; assumption.
Qed.

Lemma normalized_spec (max v x : Z) :
  (if negb (v =? max) then pymod v max else Ok v) = Ok x -> x = normalized max v.
Proof.
  unfold normalized, pymod.
  destruct (Z.eqb_spec v max) as [Hv|Hv]; simpl; [congruence |].
  destruct (Z.eqb_spec max 0); [discriminate | congruence].
Qed.

Lemma normalized_ok (max v : Z) :
  v = max \/ max <> 0 ->
  (if negb (v =? max) then pymod v max else Ok v) = Ok (normalized max v).
Proof.
  unfold normalized, pymod. intros H.
  destruct (Z.eqb_spec v max) as [Hv|Hv]; simpl; [done |].
  destruct (Z.eqb_spec max 0); [lia | done].
Qed.

Lemma normalize_head_spec (xmax ymax : Z) (s s' : Snake) :
  normalize_head xmax ymax s = Ok s' ->
  xpos s' = normalized xmax (xpos s) /\ ypos s' = normalized ymax (ypos s) /\
  linexpos s' = linexpos s /\ lineypos s' = lineypos s /\
  direction s' = direction s /\ trapped s' = trapped s.
Proof.
  unfold normalize_head. intros H.
  inv_bind H. inv_bind H. inversion H; subst s'. simpl in *.
  apply normalized_spec in Hv, Hv0. subst. repeat split; reflexivity.
Qed.

Lemma normalize_head_ok (xmax ymax : Z) (s : Snake) :
  (xpos s = xmax \/ xmax <> 0) -> (ypos s = ymax \/ ymax <> 0) ->
  exists s', normalize_head xmax ymax s = Ok s'.
Proof.
  unfold normalize_head. intros Hx Hy.
  rewrite (normalized_ok xmax (xpos s) Hx). simpl.
  rewrite (normalized_ok ymax (ypos s) Hy). simpl. eauto.
Qed.

Lemma normalized_in_bounds (max v : Z) : 0 <= v <= max -> normalized max v = v.
Proof.
  intros H. unfold normalized. zbool; [done |]. apply Z.mod_small. lia.
Qed.

Lemma apply_direction_body (xmax ymax : Z) (bc : string) (d : Direction) (s : Snake) :
  linexpos (apply_direction xmax ymax bc d s) = linexpos s /\
  lineypos (apply_direction xmax ymax bc d s) = lineypos s /\
  trapped (apply_direction xmax ymax bc d s) = trapped s /\
  direction (apply_direction xmax ymax bc d s) = direction s.
Proof.
  unfold apply_direction.
  destruct d; match goal with |- context [if ?c then _ else _] => destruct c end;
    simpl; repeat split; reflexivity.
Qed.

(** What a returning call of [move] did: either no direction was allowed
    and only the flag was set, or a direction [d] of the allowed set was
    drawn and applied. *)
Lemma move_inv (xmax ymax : Z) (bc : string) (occ : ndarray) (r : nat) (s s' : Snake) :
  move xmax ymax bc occ r s = Ok s' ->
  exists a, allowed_directions xmax ymax bc occ s = Ok a /\
    ((size a = 0%nat /\ s' = set_trapped true s) \/
     (size a <> 0%nat /\ exists d s1,
        random_choice (elements a) r = Ok d /\ d ∈ a /\
        advance_body (apply_direction xmax ymax bc d (set_direction (Some d) s)) = Ok s1 /\
        normalize_head xmax ymax s1 = Ok s')).
Proof.
  unfold move. intros H. inv_bind H. exists v. split; [done |].
  destruct (Nat.eqb_spec (size v) 0) as [Hz|Hz].
  - left. by inversion H.
  - right. split; [done |]. inv_bind H. inv_bind H.
    exists v0, v1. split_and!; try done. by apply (random_choice_allowed v r).
Qed.

Lemma move_lengths (xmax ymax : Z) (bc : string) (occ : ndarray) (r : nat) (s s' : Snake) :
  move xmax ymax bc occ r s = Ok s' ->
  length (linexpos s') = length (linexpos s) /\
  length (lineypos s') = length (lineypos s).
Proof.
  intros H. apply move_inv in H as (a & _ & [[_ ->] | (_ & d & s1 & _ & _ & Hadv & Hnorm)]).
  - done.
  - apply normalize_head_spec in Hnorm as (_ & _ & -> & -> & _).
    destruct (advance_body_spec (apply_direction xmax ymax bc d (set_direction (Some d) s)))
      as (s2 & Hs2 & _ & _ & _ & _ & Hlx & Hly).
    rewrite Hadv in Hs2. inversion Hs2; subst s2.
    rewrite Hlx, Hly.
    destruct (apply_direction_body xmax ymax bc d (set_direction (Some d) s)) as (-> & -> & _).
    done.
Qed.

(** [move] never resets the flag. *)
Lemma move_trapped_mono (xmax ymax : Z) (bc : string) (occ : ndarray) (r : nat) (s s' : Snake) :
  move xmax ymax bc occ r s = Ok s' -> trapped s = true -> trapped s' = true.
Proof.
  intros H Ht. apply move_inv in H as (a & _ & [[_ ->] | (_ & d & s1 & _ & _ & Hadv & Hnorm)]).
  - done.
  - apply normalize_head_spec in Hnorm as (_ & _ & _ & _ & _ & ->).
    destruct (advance_body_spec (apply_direction xmax ymax bc d (set_direction (Some d) s)))
      as (s2 & Hs2 & _ & _ & _ & Htr & _).
    rewrite Hadv in Hs2. inversion Hs2; subst s2. rewrite Htr.
    destruct (apply_direction_body xmax ymax bc d (set_direction (Some d) s)) as (_ & _ & -> & _).
    done.
Qed.

Lemma random_choice_size (a : gset Direction) (r : nat) (d : Direction) :
  random_choice (elements a) r = Ok d -> size a <> 0%nat.
Proof.
  intros H Hs. apply random_choice_allowed in H.
  apply size_empty_inv in Hs. set_solver.
Qed.

(** A call of [move] in which direction [d] is drawn from the allowed
    set: it returns, with the head of [apply_direction] after the final
    modulo. *)
Lemma move_step (xmax ymax : Z) (bc : string) (occ : ndarray) (r : nat)
    (s : Snake) (a : gset Direction) (d : Direction) :
  allowed_directions xmax ymax bc occ s = Ok a ->
  random_choice (elements a) r = Ok d ->
  (xpos (apply_direction xmax ymax bc d s) = xmax \/ xmax <> 0) ->
  (ypos (apply_direction xmax ymax bc d s) = ymax \/ ymax <> 0) ->
  exists s', move xmax ymax bc occ r s = Ok s' /\
    xpos s' = normalized xmax (xpos (apply_direction xmax ymax bc d s)) /\
    ypos s' = normalized ymax (ypos (apply_direction xmax ymax bc d s)) /\
    direction s' = Some d /\ trapped s' = trapped s.
Proof.
  intros Ha Hd Hx Hy.
  set (s1 := apply_direction xmax ymax bc d (set_direction (Some d) s)).
  assert (Hhead : xpos s1 = xpos (apply_direction xmax ymax bc d s) /\
                  ypos s1 = ypos (apply_direction xmax ymax bc d s) /\
                  direction s1 = Some d /\ trapped s1 = trapped s).
  { subst s1. unfold apply_direction.
    destruct d; simpl;
      match goal with |- context [if ?c then _ else _] => destruct c end;
      simpl; repeat split; reflexivity. }
  destruct Hhead as (Hx1 & Hy1 & Hd1 & Ht1).
  destruct (advance_body_spec s1) as (s2 & Hs2 & Hx2 & Hy2 & Hd2 & Ht2 & _).
  destruct (normalize_head_ok xmax ymax s2) as (s' & Hs'); [lia | lia |].
  exists s'. unfold move. rewrite Ha. simpl.
  destruct (Nat.eqb_spec (size a) 0) as [Hz|Hz];
    [by apply random_choice_size in Hd |].
  rewrite Hd. simpl. fold s1. rewrite Hs2. simpl. split; [done |].
  apply normalize_head_spec in Hs' as (-> & -> & _ & _ & -> & ->).
  rewrite Hx2, Hy2, Hd2, Ht2, Hx1, Hy1, Hd1, Ht1. done.
Qed.

(** ** Legality under the wall policy *)

Lemma or_else_spec (c : bool) (g : result bool) :
  (c = true \/ exists b, g = Ok b) ->
  exists b', or_else c g = Ok b' /\ (b' = true <-> c = true \/ g = Ok true).
Proof.
  intros [-> | [b ->]]; simpl.
  - exists true. intuition.
  - destruct c; simpl; [exists true | exists b]; intuition congruence.
Qed.

Lemma or_else_true (c : bool) (g : result bool) (b : bool) :
  or_else c g = Ok b -> c = true -> b = true.
Proof. intros H ->. simpl in H. congruence. Qed.

(** Under the wall policy a direction toward the edge the head is on is
    disallowed, whatever the occupancy array holds. *)
Lemma wall_edge_disallowed (xmax ymax : Z) (occ : ndarray) (s : Snake)
    (dis : gset Direction) :
  disallowed_directions xmax ymax "wall" occ s = Ok dis ->
  (ypos s = ymax -> north ∈ dis) /\ (xpos s = xmax -> east ∈ dis) /\
  (ypos s = 0 -> south ∈ dis) /\ (xpos s = 0 -> west ∈ dis).
Proof.
  unfold disallowed_directions. simpl. intros H.
  inv_bind H. inv_bind H. inv_bind H. inv_bind H. inversion H; subst dis.
  rewrite !disallowed_set_elem.
  repeat split; intros Heq;
    match goal with
    | Hc : or_else ?c _ = Ok ?b |- ?b = true =>
        apply (or_else_true _ _ _ Hc); apply Z.eqb_eq; exact Heq
    end.
Qed.

Lemma wall_disallowed_spec (xmax ymax : Z) (occ : ndarray) (s : Snake) :
  has_shape occ (xmax + 1) (ymax + 1) -> in_bounds xmax ymax s ->
  exists dis, disallowed_directions xmax ymax "wall" occ s = Ok dis /\
    (north ∈ dis <-> ypos s = ymax \/ getitem occ (xpos s) (ypos s + 1) = Ok true) /\
    (east ∈ dis <-> xpos s = xmax \/ getitem occ (xpos s + 1) (ypos s) = Ok true) /\
    (south ∈ dis <-> ypos s = 0 \/ getitem occ (xpos s) (ypos s - 1) = Ok true) /\
    (west ∈ dis <-> xpos s = 0 \/ getitem occ (xpos s - 1) (ypos s) = Ok true).
Proof.
  intros Hsh [Hx Hy]. unfold disallowed_directions. simpl.
  destruct (or_else_spec (ypos s =? ymax) (getitem occ (xpos s) (ypos s + 1)))
    as (cn & -> & Hn).
  { destruct (Z.eqb_spec (ypos s) ymax); [by left | right].
    eapply getitem_in_range; eauto; lia. }
  destruct (or_else_spec (xpos s =? xmax) (getitem occ (xpos s + 1) (ypos s)))
    as (ce & -> & He).
  { destruct (Z.eqb_spec (xpos s) xmax); [by left | right].
    eapply getitem_in_range; eauto; lia. }
  destruct (or_else_spec (ypos s =? 0) (getitem occ (xpos s) (ypos s - 1)))
    as (cs & -> & Hs).
  { destruct (Z.eqb_spec (ypos s) 0); [by left | right].
    eapply getitem_in_range; eauto; lia. }
  destruct (or_else_spec (xpos s =? 0) (getitem occ (xpos s - 1) (ypos s)))
    as (cw & -> & Hw).
  { destruct (Z.eqb_spec (xpos s) 0); [by left | right].
    eapply getitem_in_range; eauto; lia. }
  simpl. eexists; split; [reflexivity |].
  rewrite !disallowed_set_elem, Hn, He, Hs, Hw, !Z.eqb_eq. done.
Qed.

Lemma wall_allowed_off_edge (xmax ymax : Z) (occ : ndarray) (s : Snake)
    (a : gset Direction) (d : Direction) :
  allowed_directions xmax ymax "wall" occ s = Ok a -> d ∈ a ->
  match d with
  | north => ypos s <> ymax
  | east => xpos s <> xmax
  | south => ypos s <> 0
  | west => xpos s <> 0
  end.
Proof.
  unfold allowed_directions. intros H Hd. inv_bind H. inversion H; subst a.
  apply elem_of_difference in Hd as [_ Hd].
  apply wall_edge_disallowed in Hv as (Hn & He & Hs & Hw).
  destruct d; intros Heq; apply Hd; auto.
Qed.

Lemma apply_direction_wall_in_bounds (xmax ymax : Z) (d : Direction) (s : Snake) :
  in_bounds xmax ymax s -> in_bounds xmax ymax (apply_direction xmax ymax "wall" d s).
Proof.
  unfold in_bounds, apply_direction. intros [Hx Hy].
  destruct d; simpl; zbool; simpl; lia.
Qed.

(** One call under the wall policy, on an array of the grid's shape,
    returns and keeps the head on the lattice. *)
Lemma move_wall_in_bounds (xmax ymax : Z) (occ : ndarray) (r : nat) (s : Snake) :
  has_shape occ (xmax + 1) (ymax + 1) -> in_bounds xmax ymax s ->
  exists s', move xmax ymax "wall" occ r s = Ok s' /\ in_bounds xmax ymax s'.
Proof.
  intros Hsh Hb.
  destruct (wall_disallowed_spec xmax ymax occ s Hsh Hb) as (dis & Hdis & _).
  assert (Ha : allowed_directions xmax ymax "wall" occ s = Ok (all_directions ∖ dis))
    by (unfold allowed_directions; by rewrite Hdis).
  destruct (Nat.eqb_spec (size (all_directions ∖ dis)) 0) as [Hz|Hz].
  - exists (set_trapped true s). split; [| exact Hb].
    unfold move. rewrite Ha. simpl.
    by destruct (Nat.eqb_spec (size (all_directions ∖ dis)) 0).
  - destruct (allowed_nonempty_choice _ r Hz) as (d & Hd).
    pose proof (apply_direction_wall_in_bounds xmax ymax d s Hb) as [Hx1 Hy1].
    destruct (move_step xmax ymax "wall" occ r s _ d Ha Hd) as (s' & Hs' & Hx & Hy & _);
      [lia | lia |].
    exists s'. split; [done |].
    unfold in_bounds. rewrite Hx, Hy, !normalized_in_bounds by lia. done.
Qed.

(** ** The claims *)

(** C6: under the wall policy, with the head on the lattice and the
    occupancy array of the grid's shape, the legality check of
    [Snake.move] returns a set in which a direction is disallowed exactly
    when the head is on the edge that limits it (y = ymax for north,
    x = xmax for east, y = 0 for south, x = 0 for west) or the adjacent
    cell in that direction is marked occupied; the allowed set is the
    complement within the four directions. *)
Theorem C6_wall_disallowed_iff (xmax ymax : Z) (occ : ndarray) (s : Snake) :
  has_shape occ (xmax + 1) (ymax + 1) -> in_bounds xmax ymax s ->
  exists dis, disallowed_directions xmax ymax "wall" occ s = Ok dis /\
    (north ∈ dis <-> ypos s = ymax \/ getitem occ (xpos s) (ypos s + 1) = Ok true) /\
    (east ∈ dis <-> xpos s = xmax \/ getitem occ (xpos s + 1) (ypos s) = Ok true) /\
    (south ∈ dis <-> ypos s = 0 \/ getitem occ (xpos s) (ypos s - 1) = Ok true) /\
    (west ∈ dis <-> xpos s = 0 \/ getitem occ (xpos s - 1) (ypos s) = Ok true) /\
    exists allowed, allowed_directions xmax ymax "wall" occ s = Ok allowed /\
      forall d, d ∈ allowed <-> d ∉ dis.
Proof.
  intros Hsh Hb.
  destruct (wall_disallowed_spec xmax ymax occ s Hsh Hb) as (dis & Hdis & Hn & He & Hs & Hw).
  exists dis. split_and!; try done.
  exists (all_directions ∖ dis). split.
  - unfold allowed_directions. by rewrite Hdis.
  - intros d. rewrite elem_of_difference. unfold all_directions.
    split; [tauto |]. intros Hd. split; [| done]. destruct d; set_solver.
Qed.

(** C7: under the wall policy, a head that starts on the lattice is on
    the lattice after every call of [Snake.move]: any sequence of calls,
    each on an occupancy array of the grid's shape, returns with
    0 <= x <= xmax and 0 <= y <= ymax. *)
Theorem C7_wall_containment (xmax ymax : Z) (calls : list (ndarray * nat)) (s : Snake) :
  Forall (fun c => has_shape (fst c) (xmax + 1) (ymax + 1)) calls ->
  in_bounds xmax ymax s ->
  exists s', moves xmax ymax "wall" calls s = Ok s' /\ in_bounds xmax ymax s'.
Proof.
  intros Hcalls. revert s.
  induction Hcalls as [| [occ r] calls Hsh _ IH]; intros s Hb.
  - exists s. done.
  - destruct (move_wall_in_bounds xmax ymax occ r s Hsh Hb) as (s1 & Hs1 & Hb1).
    destruct (IH s1 Hb1) as (s' & Hs' & Hb').
    exists s'. simpl. rewrite Hs1. simpl. done.
Qed.

Lemma moves_lengths (xmax ymax : Z) (bc : string) (calls : list (ndarray * nat))
    (s s' : Snake) :
  moves xmax ymax bc calls s = Ok s' ->
  length (linexpos s') = length (linexpos s) /\
  length (lineypos s') = length (lineypos s).
Proof.
  revert s. induction calls as [| [occ r] calls IH]; intros s H; simpl in H.
  - by inversion H.
  - inv_bind H. apply IH in H as [-> ->]. by apply move_lengths in Hv.
Qed.

(** C8: a snake constructed with one of the four orientations and a
    length L >= 1 has a body path of exactly L coordinates after
    construction and after every later call of [Snake.move], whatever the
    boundary policy. *)
Theorem C8_body_length (position : Z * Z) (sy co : string) (o : Direction) (L : Z)
    (xmax ymax : Z) (bc : string) (calls : list (ndarray * nat)) (s' : Snake) :
  1 <= L ->
  moves xmax ymax bc calls (Snake_init position sy co o L) = Ok s' ->
  Z.of_nat (length (linexpos (Snake_init position sy co o L))) = L /\
  Z.of_nat (length (lineypos (Snake_init position sy co o L))) = L /\
  Z.of_nat (length (linexpos s')) = L /\
  Z.of_nat (length (lineypos s')) = L.
Proof.
  intros HL Hm.
  destruct (Snake_init_lengths position sy co o L) as [Hx Hy].
  apply moves_lengths in Hm as [Hx' Hy'].
  rewrite Hx', Hy', Hx, Hy. lia.
Qed.

Lemma normalized_step_ne (m y v : Z) :
  2 <= m -> (v = y + 1 \/ v = y - 1) -> normalized m v <> y.
Proof.
  intros Hm Hv. unfold normalized.
  destruct (Z.eqb_spec v m) as [Heq|Hne]; [lia |].
  by apply step_mod_ne.
Qed.

Lemma normalized_off_ne (m y : Z) :
  2 <= m -> ~ (0 <= y <= m) -> normalized m y <> y.
Proof.
  intros Hm Hy. unfold normalized.
  destruct (Z.eqb_spec y m) as [Heq|Hne]; [lia |].
  apply off_axis_mod_ne; [lia | done].
Qed.

Lemma normalized_succ_max (m : Z) : 2 <= m -> normalized m (m + 1) = 1.
Proof.
  intros Hm. unfold normalized.
  destruct (Z.eqb_spec (m + 1) m) as [Heq|_]; [lia |].
  pose proof (pymod_succ_max m Hm) as H. unfold pymod in H.
  destruct (Z.eqb_spec m 0); [lia | congruence].
Qed.

Lemma normalized_pred_zero (m : Z) : 2 <= m -> normalized m (0 - 1) = m - 1.
Proof.
  intros Hm. unfold normalized.
  destruct (Z.eqb_spec (0 - 1) m) as [Heq|_]; [lia |].
  pose proof (pymod_pred_zero m Hm) as H. unfold pymod in H.
  destruct (Z.eqb_spec m 0); [lia | congruence].
Qed.

(** On axes of size at least 2, the head after the step and the final
    modulo differs from the head before, for a direction that the wall
    policy allows or for any direction under the periodic policy. *)
Lemma apply_direction_moves (xmax ymax : Z) (bc : string) (d : Direction) (s : Snake) :
  2 <= xmax -> 2 <= ymax ->
  (bc = "wall" /\
   match d with
   | north => ypos s <> ymax
   | east => xpos s <> xmax
   | south => ypos s <> 0
   | west => xpos s <> 0
   end) \/ bc = "periodic" ->
  normalized xmax (xpos (apply_direction xmax ymax bc d s)) <> xpos s \/
  normalized ymax (ypos (apply_direction xmax ymax bc d s)) <> ypos s.
Proof.
  intros Hx Hy [[-> Hedge] | ->]; unfold apply_direction; simpl.
  - destruct d; zbool; simpl;
      first [ right; apply normalized_step_ne; lia
            | left; apply normalized_step_ne; lia
            | right; apply normalized_off_ne; lia
            | left; apply normalized_off_ne; lia ].
  - destruct d; simpl;
      first [ right; apply normalized_step_ne; lia
            | left; apply normalized_step_ne; lia ].
Qed.

(** C10: on a grid with xmax >= 2 and ymax >= 2, under the wall or the
    periodic policy, a call of [Snake.move] that finds a direction
    allowed (and so does not set the trapped flag) returns with a head
    coordinate different from the one before the call. *)
Theorem C10_untrapped_move_changes_head (xmax ymax : Z) (bc : string)
    (occ : ndarray) (r : nat) (s : Snake) (allowed : gset Direction) :
  bc = "wall" \/ bc = "periodic" ->
  2 <= xmax -> 2 <= ymax ->
  allowed_directions xmax ymax bc occ s = Ok allowed ->
  size allowed <> 0%nat ->
  exists s', move xmax ymax bc occ r s = Ok s' /\
    trapped s' = trapped s /\
    (xpos s', ypos s') <> (xpos s, ypos s).
Proof.
  intros Hbc Hx Hy Ha Hsz.
  destruct (allowed_nonempty_choice allowed r Hsz) as (d & Hd).
  destruct (move_step xmax ymax bc occ r s allowed d Ha Hd) as (s' & Hs' & Hx' & Hy' & _ & Ht);
    [lia | lia |].
  exists s'. split_and!; try done.
  intros [= Hex Hey]. rewrite Hx' in Hex. rewrite Hy' in Hey.
  assert (Hcase : (bc = "wall" /\
                   match d with
                   | north => ypos s <> ymax
                   | east => xpos s <> xmax
                   | south => ypos s <> 0
                   | west => xpos s <> 0
                   end) \/ bc = "periodic").
  { destruct Hbc as [-> | ->]; [left | by right]. split; [done |].
    eapply wall_allowed_off_edge; eauto. by eapply random_choice_allowed. }
  destruct (apply_direction_moves xmax ymax bc d s Hx Hy Hcase); congruence.
Qed.

(** C1 (amended): under the periodic policy on a grid with xmax >= 2 and
    ymax >= 2, a call of [Snake.move] that draws direction [d] returns,
    and a step across an edge lands one cell past the opposite edge, the
    two edges 0 and max being the same place: north from y = ymax gives
    y = 1, east from x = xmax gives x = 1, south from y = 0 gives
    y = ymax - 1, west from x = 0 gives x = xmax - 1. *)
Theorem C1_periodic_wrap (xmax ymax : Z) (occ : ndarray) (r : nat) (s : Snake)
    (allowed : gset Direction) (d : Direction) :
  2 <= xmax -> 2 <= ymax ->
  allowed_directions xmax ymax "periodic" occ s = Ok allowed ->
  random_choice (elements allowed) r = Ok d ->
  exists s', move xmax ymax "periodic" occ r s = Ok s' /\
    direction s' = Some d /\
    (d = north -> ypos s = ymax -> ypos s' = 1) /\
    (d = east -> xpos s = xmax -> xpos s' = 1) /\
    (d = south -> ypos s = 0 -> ypos s' = ymax - 1) /\
    (d = west -> xpos s = 0 -> xpos s' = xmax - 1).
Proof.
  intros Hx Hy Ha Hd.
  destruct (move_step xmax ymax "periodic" occ r s allowed d Ha Hd)
    as (s' & Hs' & Hx' & Hy' & Hdir & _); [lia | lia |].
  exists s'. split_and!; try done; intros -> Hedge;
    unfold apply_direction in Hx', Hy'; simpl in Hx', Hy'.
  - rewrite Hy', Hedge. by apply normalized_succ_max.
  - rewrite Hx', Hedge. by apply normalized_succ_max.
  - rewrite Hy', Hedge. by apply normalized_pred_zero.
  - rewrite Hx', Hedge. by apply normalized_pred_zero.
Qed.

(** C1 (as stated) fails: on the 10 x 10 periodic grid the snake whose
    head is at (10, 5) steps east and lands on x = 1, not on x = 0. *)
Lemma C1_counterexample :
  ~ (forall (xmax ymax : Z) (occ : ndarray) (r : nat) (s s' : Snake),
       move xmax ymax "periodic" occ r s = Ok s' -> trapped s' = false ->
       (direction s' = Some north -> ypos s = ymax -> ypos s' = 0) /\
       (direction s' = Some east -> xpos s = xmax -> xpos s' = 0) /\
       (direction s' = Some south -> ypos s = 0 -> ypos s' = ymax) /\
       (direction s' = Some west -> xpos s = 0 -> xpos s' = xmax)).
Proof.
  intros H.
  pose proof (H 10 10 (initial_occupancy [right_edge_snake] (10, 10)) 1%nat
                right_edge_snake) as H'.
  destruct (move 10 10 "periodic" (initial_occupancy [right_edge_snake] (10, 10)) 1
              right_edge_snake) as [s'|e] eqn:Hm; vm_compute in Hm; [| discriminate].
  inversion Hm; subst s'; clear Hm.
  destruct (H' _ eq_refl eq_refl) as (_ & He & _).
  specialize (He eq_refl eq_refl). vm_compute in He. discriminate.
Qed.

(** ** An unknown boundary policy *)

Lemma unknown_policy_disallows_nothing (xmax ymax : Z) (bc : string)
    (occ : ndarray) (s : Snake) :
  bc <> "wall" -> bc <> "periodic" ->
  disallowed_directions xmax ymax bc occ s = Ok ∅.
Proof.
  intros Hw Hp. unfold disallowed_directions.
  apply String.eqb_neq in Hw, Hp. by rewrite Hw, Hp.
Qed.

Lemma unknown_policy_no_step (xmax ymax : Z) (bc : string) (d : Direction) (s : Snake) :
  bc <> "wall" -> bc <> "periodic" -> apply_direction xmax ymax bc d s = s.
Proof.
  intros Hw Hp. unfold apply_direction.
  apply String.eqb_neq in Hw, Hp. rewrite Hw, Hp. by destruct d.
Qed.

(** C9 (amended): a boundary policy other than 'wall' and 'periodic' is
    accepted without an error.  The constructor of [Grid] returns for it
    whenever it returns for 'wall', and stores the value as given;
    [Snake.move] under it disallows no direction, and for a head on the
    lattice it returns without setting the trapped flag and leaves the
    head where it is. *)
Theorem C9_unknown_policy_accepted (ws : list Snake) (gridsize : Z * Z) (bc : string)
    (n : Z) (g : Grid) (occ : ndarray) (r : nat) (s : Snake) :
  bc <> "wall" -> bc <> "periodic" ->
  Grid_init ws gridsize "wall" n = Ok g ->
  in_bounds (xmax g) (ymax g) s ->
  Grid_init ws gridsize bc n = Ok (set_bc bc g) /\
  disallowed_directions (xmax g) (ymax g) bc occ s = Ok ∅ /\
  exists s', move (xmax g) (ymax g) bc occ r s = Ok s' /\
    trapped s' = trapped s /\ xpos s' = xpos s /\ ypos s' = ypos s.
Proof.
  intros Hw Hp Hg [Hx Hy]. split_and!.
  - unfold Grid_init in *. inv_bind Hg. inv_bind Hg. inversion Hg; subst g.
    rewrite Hv. simpl. rewrite Hv0. done.
  - by apply unknown_policy_disallows_nothing.
  - assert (Ha : allowed_directions (xmax g) (ymax g) bc occ s = Ok (all_directions ∖ ∅)).
    { unfold allowed_directions. by rewrite unknown_policy_disallows_nothing. }
    assert (Hsz : size (all_directions ∖ (∅ : gset Direction)) <> 0%nat)
      by (vm_compute; lia).
    destruct (allowed_nonempty_choice _ r Hsz) as (d & Hd).
    destruct (move_step (xmax g) (ymax g) bc occ r s _ d Ha Hd) as (s' & Hs' & Hx' & Hy' & _ & Ht).
    + rewrite unknown_policy_no_step by done. lia.
    + rewrite unknown_policy_no_step by done. lia.
    + exists s'. rewrite unknown_policy_no_step in Hx', Hy' by done.
      rewrite normalized_in_bounds in Hx', Hy' by lia. done.
Qed.

(** C9 (as stated) fails: the three snakes of the main program on a
    20 x 20 grid with the policy 'torus' are constructed and run without
    an error. *)
Lemma C9_counterexample :
  is_ok (Grid_init [snec; snek; sneck] (20, 20) "torus" 400) = true /\
  is_ok (g ← Grid_init [snec; snek; sneck] (20, 20) "torus" 3;
         go (const_draws 0) g) = true.
Proof. split; vm_compute; reflexivity. Qed.

(** ** Runs of the grid *)

Lemma ticks_pauses (rand : nat -> nat -> nat) (n j : nat) (g g' : Grid) :
  ticks rand j n g = Ok g' -> pauses g' = (pauses g + n)%nat.
Proof.
  revert j g. induction n as [| n IH]; intros j g H; simpl in H.
  - inversion H. lia.
  - inv_bind H. apply IH in H. rewrite H.
    unfold tick in Hv. inv_bind Hv. destruct v0 as [ws occ].
    inversion Hv; subst v. simpl. lia.
Qed.

(** A run that returns has executed no tick when every snake was trapped
    at the start, and exactly [nSteps] ticks otherwise. *)
Lemma go_pauses (rand : nat -> nat -> nat) (g g' : Grid) :
  go rand g = Ok g' ->
  pauses g' = (pauses g + if all_trapped g then 0 else Z.to_nat (nSteps g))%nat.
Proof.
  unfold go. destruct (all_trapped g); simpl; intros H.
  - inversion H. lia.
  - by apply ticks_pauses in H.
Qed.

(** C2: on the 10 x 10 periodic grid, the snake with its head on the top
    edge (5, 10) draws north in the first tick; [Grid.go] then indexes the
    occupancy array at y = 11 and raises [IndexError]. *)
Theorem C2_periodic_index_error :
  exists g, Grid_init [top_edge_snake] (10, 10) "periodic" 1 = Ok g /\
    in_bounds 10 10 top_edge_snake /\
    go (const_draws 2) g = Raise IndexError.
Proof.
  eexists. split; [vm_compute; reflexivity |].
  split; [unfold in_bounds; simpl; lia | vm_compute; reflexivity].
Qed.

(** C5: in the same call of [Snake.move] (periodic policy, head on the
    top edge, north drawn) the flag is not set, the head ends at y = 1,
    and the first element of the body path is y = 11. *)
Theorem C5_body_head_mismatch :
  exists s', move 10 10 "periodic" (initial_occupancy [top_edge_snake] (10, 10)) 2
               top_edge_snake = Ok s' /\
    trapped s' = false /\
    (xpos s', ypos s') = (5, 1) /\
    linexpos s' = [5; 5; 5] /\ lineypos s' = [11; 10; 9].
Proof. eexists. split; [vm_compute; reflexivity |]. simpl. done. Qed.

(** C3: on the 3 x 3 wall grid the corner snake is trapped in the first
    tick, with its own cell cleared in the occupancy array; in the second
    tick, the neighbours having stepped away, it moves to (1, 0) with the
    flag still set. *)
Theorem C3_trapped_snake_moves :
  exists g g1 g2 w1 w2,
    Grid_init [corner_snake; blocker_east; blocker_north] (2, 2) "wall" 2 = Ok g /\
    ticks corner_draws 0 1 g = Ok g1 /\
    snakes g1 !! 0%nat = Some w1 /\
    trapped w1 = true /\ (xpos w1, ypos w1) = (0, 0) /\
    getitem (occupied g1) 0 0 = Ok false /\
    go corner_draws g = Ok g2 /\
    snakes g2 !! 0%nat = Some w2 /\
    trapped w2 = true /\ (xpos w2, ypos w2) = (1, 0) /\
    linexpos w2 = [1] /\ lineypos w2 = [0].
Proof.
  do 5 eexists.
  split; [vm_compute; reflexivity |].
  split; [vm_compute; reflexivity |].
  split; [vm_compute; reflexivity |].
  split; [reflexivity |]. split; [reflexivity |].
  split; [vm_compute; reflexivity |].
  split; [vm_compute; reflexivity |].
  split; [vm_compute; reflexivity |].
  repeat split; reflexivity.
Qed.

(** C4: on the one-cell wall grid the only snake is trapped in the first
    tick, so every snake is trapped after one tick; the run with a budget
    of three steps still executes three ticks. *)
Theorem C4_ticks_after_all_trapped :
  exists g g1 g3,
    Grid_init [corner_snake] (0, 0) "wall" 3 = Ok g /\
    ticks (const_draws 0) 0 1 g = Ok g1 /\
    all_trapped g1 = true /\ pauses g1 = 1%nat /\
    go (const_draws 0) g = Ok g3 /\
    pauses g3 = 3%nat.
Proof.
  do 3 eexists.
  split; [vm_compute; reflexivity |].
  split; [vm_compute; reflexivity |].
  split; [reflexivity |]. split; [reflexivity |].
  split; [vm_compute; reflexivity |].
  reflexivity.
Qed.

(** ** The wall policy along a run of the grid *)

Lemma setitem_shape (occ occ' : ndarray) (i j : Z) (v : bool) (n0 n1 : Z) :
  setitem occ i j v = Ok occ' -> has_shape occ n0 n1 -> has_shape occ' n0 n1.
Proof.
  unfold setitem. intros H [Hlen Hrows]. inv_bind H.
  destruct (occ !! v0) as [row|] eqn:Hrow; [| discriminate].
  inv_bind H. inversion H; subst occ'. split.
  - by rewrite length_insert.
  - apply Forall_insert; [done |]. cbv beta. rewrite length_insert.
    eapply (proj1 (Forall_lookup _ _) Hrows); eauto.
Qed.

Lemma setitems_shape (ps : list (Z * Z)) (occ occ' : ndarray) (v : bool) (n0 n1 : Z) :
  setitems occ ps v = Ok occ' -> has_shape occ n0 n1 -> has_shape occ' n0 n1.
Proof.
  revert occ. induction ps as [| [i j] ps IH]; intros occ H Hsh; simpl in H.
  - by inversion H; subst.
  - inv_bind H. eapply IH; [done |]. by eapply setitem_shape.
Qed.

Lemma setitem_fancy_shape (occ occ' : ndarray) (xs ys : list Z) (v : bool) (n0 n1 : Z) :
  setitem_fancy occ xs ys v = Ok occ' -> has_shape occ n0 n1 -> has_shape occ' n0 n1.
Proof.
  unfold setitem_fancy. intros H Hsh. inv_bind H. by eapply setitems_shape.
Qed.

Lemma step_snake_wall (xmax ymax : Z) (occ occ' : ndarray) (r : nat) (w w' : Snake) :
  step_snake xmax ymax "wall" occ r w = Ok (w', occ') ->
  has_shape occ (xmax + 1) (ymax + 1) -> in_bounds xmax ymax w ->
  has_shape occ' (xmax + 1) (ymax + 1) /\ in_bounds xmax ymax w'.
Proof.
  unfold step_snake. intros H Hsh Hb.
  inv_bind H. inv_bind H. inv_bind H. inv_bind H.
  apply setitem_shape with (n0 := xmax + 1) (n1 := ymax + 1) in Hv1; [| done].
  destruct (move_wall_in_bounds xmax ymax v1 r w Hv1 Hb) as (s' & Hs' & Hb').
  rewrite Hv2 in Hs'. inversion Hs'; subst s'.
  destruct (trapped v2); simpl in H.
  - by inversion H; subst.
  - inv_bind H. inv_bind H. inversion H; subst. split; [| done].
    eapply setitem_fancy_shape; [done |]. by eapply setitem_shape.
Qed.

Lemma step_snakes_wall (xmax ymax : Z) (rand : nat -> nat) (ws ws' : list Snake)
    (i : nat) (occ occ' : ndarray) :
  step_snakes xmax ymax "wall" rand i ws occ = Ok (ws', occ') ->
  has_shape occ (xmax + 1) (ymax + 1) -> Forall (in_bounds xmax ymax) ws ->
  has_shape occ' (xmax + 1) (ymax + 1) /\ Forall (in_bounds xmax ymax) ws'.
Proof.
  revert ws' i occ occ'. induction ws as [| w ws IH]; intros ws' i occ occ' H Hsh Hb;
    simpl in H.
  - by inversion H; subst.
  - inv_bind H. destruct v as [w1 occ1]. inv_bind H. destruct v as [ws2 occ2].
    inversion H; subst. apply Forall_cons in Hb as [Hw Hws].
    destruct (step_snake_wall _ _ _ _ _ _ _ Hv Hsh Hw) as [Hsh1 Hw1].
    destruct (IH _ _ _ _ Hv0 Hsh1 Hws) as [Hsh2 Hws2].
    split; [done |]. by apply Forall_cons.
Qed.

Lemma tick_wall (rand : nat -> nat) (g g' : Grid) :
  tick rand g = Ok g' -> wall_grid_ok g -> wall_grid_ok g'.
Proof.
  unfold tick, wall_grid_ok. intros H (Hbc & Hsh & Hb).
  inv_bind H. destruct v as [ws occ]. inversion H; subst g'. simpl.
  rewrite Hbc in Hv. split; [done |]. by eapply step_snakes_wall.
Qed.

Lemma ticks_wall (rand : nat -> nat -> nat) (n j : nat) (g g' : Grid) :
  ticks rand j n g = Ok g' -> wall_grid_ok g -> wall_grid_ok g'.
Proof.
  revert j g. induction n as [| n IH]; intros j g H Hok; simpl in H.
  - by inversion H; subst.
  - inv_bind H. eapply IH; [done |]. by eapply tick_wall.
Qed.

(** Every head is on the lattice at the end of a run under the wall
    policy that started with every head on the lattice. *)
Lemma go_wall (rand : nat -> nat -> nat) (g g' : Grid) :
  go rand g = Ok g' -> wall_grid_ok g -> wall_grid_ok g'.
Proof.
  unfold go. destruct (all_trapped g); simpl; intros H Hok.
  - by inversion H; subst.
  - by eapply ticks_wall.
Qed.

Lemma np_zeros_shape (n0 n1 : Z) (occ : ndarray) :
  np_zeros n0 n1 = Ok occ -> has_shape occ n0 n1.
Proof.
  unfold np_zeros.
  destruct (Z.ltb_spec n0 0), (Z.ltb_spec n1 0); simpl; try discriminate.
  intros [= <-]. split.
  - rewrite length_replicate. lia.
  - apply Forall_replicate. rewrite length_replicate. lia.
Qed.

Lemma mark_snakes_shape (ws : list Snake) (occ occ' : ndarray) (n0 n1 : Z) :
  mark_snakes occ ws = Ok occ' -> has_shape occ n0 n1 -> has_shape occ' n0 n1.
Proof.
  revert occ. induction ws as [| w ws IH]; intros occ H Hsh; simpl in H.
  - by inversion H; subst.
  - inv_bind H. eapply IH; [done |].
    unfold mark_snake in Hv. inv_bind Hv.
    eapply setitem_fancy_shape; [done |]. by eapply setitem_shape.
Qed.

(** The constructor of [Grid] builds an occupancy array of shape
    (xmax + 1, ymax + 1). *)
Lemma Grid_init_shape (ws : list Snake) (gridsize : Z * Z) (bc : string) (n : Z)
    (g : Grid) :
  Grid_init ws gridsize bc n = Ok g ->
  has_shape (occupied g) (xmax g + 1) (ymax g + 1) /\ snakes g = ws.
Proof.
  unfold Grid_init. intros H. inv_bind H. inv_bind H. inversion H; subst g. simpl.
  split; [| done]. eapply mark_snakes_shape; [done |]. by apply np_zeros_shape.
Qed.

(** A run of a wall grid from its construction: when it returns, every
    head that started on the lattice is on the lattice. *)
Lemma run_wall_in_bounds (ws : list Snake) (gridsize : Z * Z) (n : Z)
    (rand : nat -> nat -> nat) (g g' : Grid) :
  Grid_init ws gridsize "wall" n = Ok g ->
  Forall (in_bounds (fst gridsize) (snd gridsize)) ws ->
  go rand g = Ok g' ->
  Forall (in_bounds (xmax g') (ymax g')) (snakes g').
Proof.
  intros Hg Hws Hgo.
  destruct (Grid_init_shape _ _ _ _ _ Hg) as [Hsh Hsn].
  assert (Hok : wall_grid_ok g).
  { unfold Grid_init in Hg. inv_bind Hg. inv_bind Hg. inversion Hg; subst g.
    simpl in *. by split. }
  by destruct (go_wall rand g g' Hgo Hok) as (_ & _ & H).
Qed.

(** ** A run under the wall policy raises no exception *)

Lemma setitem_in_range (occ : ndarray) (n0 n1 i j : Z) (v : bool) :
  has_shape occ n0 n1 -> 0 <= i < n0 -> 0 <= j < n1 ->
  exists occ', setitem occ i j v = Ok occ' /\ has_shape occ' n0 n1.
Proof.
  intros Hsh Hi Hj.
  assert (exists occ', setitem occ i j v = Ok occ') as (occ' & Hocc').
  { destruct Hsh as [Hlen Hrows]. unfold setitem.
    rewrite norm_index_in_range by lia. simpl.
    destruct (occ !! Z.to_nat i) as [row|] eqn:Hrow.
    - assert (Z.of_nat (length row) = n1) as Hr
        by (eapply (proj1 (Forall_lookup _ _) Hrows); eauto).
      rewrite norm_index_in_range by lia. simpl. eauto.
    - apply lookup_ge_None in Hrow. lia. }
  exists occ'. split; [done |]. by eapply setitem_shape.
Qed.

Lemma setitem_fancy_in_range (xs ys : list Z) (occ : ndarray) (n0 n1 : Z) (v : bool) :
  has_shape occ n0 n1 -> length xs = length ys ->
  Forall (fun x => 0 <= x < n0) xs -> Forall (fun y => 0 <= y < n1) ys ->
  exists occ', setitem_fancy occ xs ys v = Ok occ' /\ has_shape occ' n0 n1.
Proof.
  intros Hsh Hlen Hxs Hys. unfold setitem_fancy, broadcast.
  rewrite Hlen, Nat.eqb_refl. simpl.
  revert ys occ Hsh Hlen Hys.
  induction Hxs as [| x xs Hx _ IH]; intros [| y ys] occ Hsh Hlen Hys;
    simpl in *; try discriminate.
  - eauto.
  - apply Forall_cons in Hys as [Hy Hys].
    destruct (setitem_in_range occ n0 n1 x y v Hsh Hx Hy) as (occ1 & -> & Hsh1).
    simpl. apply IH; [done | lia | done].
Qed.

Lemma getitem1_last (l : list Z) (P : Z -> Prop) :
  l <> [] -> Forall P l -> exists v, getitem1 l (-1) = Ok v /\ P v.
Proof.
  intros Hne HP. destruct l as [| x l]; [done |].
  unfold getitem1. simpl length. rewrite norm_index_last. simpl.
  destruct ((x :: l) !! length l) as [v|] eqn:Hv.
  - exists v. split; [done |]. eapply (proj1 (Forall_lookup _ _) HP); eauto.
  - apply lookup_ge_None in Hv. simpl in Hv. lia.
Qed.

Lemma advance_body_Forall (s s' : Snake) (P Q : Z -> Prop) :
  advance_body s = Ok s' ->
  P (xpos s) -> Forall P (linexpos s) -> Q (ypos s) -> Forall Q (lineypos s) ->
  Forall P (linexpos s') /\ Forall Q (lineypos s').
Proof.
  unfold advance_body, np_delete, np_append. intros H Hx Hlx Hy Hly.
  inv_bind H. inv_bind H. inv_bind Hv. inv_bind Hv0.
  inversion H; inversion Hv; inversion Hv0; subst. simpl.
  split; apply Forall_delete; by apply Forall_cons.
Qed.

Lemma move_wall_on_lattice (xmax ymax : Z) (occ : ndarray) (r : nat) (s : Snake) :
  has_shape occ (xmax + 1) (ymax + 1) -> snake_on_lattice xmax ymax s ->
  exists s', move xmax ymax "wall" occ r s = Ok s' /\ snake_on_lattice xmax ymax s'.
Proof.
  intros Hsh (Hb & Hne & Hlen & Hlx & Hly).
  destruct (move_wall_in_bounds xmax ymax occ r s Hsh Hb) as (s' & Hs' & Hb').
  exists s'. split; [done |].
  destruct (move_lengths _ _ _ _ _ _ _ Hs') as [Hlx' Hly'].
  split; [done |]. split.
  { intros Hnil. rewrite Hnil in Hlx'. destruct (linexpos s); simpl in *; congruence. }
  split; [congruence |].
  apply move_inv in Hs' as (a & _ & [[_ ->] | (_ & d & s1 & _ & _ & Hadv & Hnorm)]);
    [done |].
  apply normalize_head_spec in Hnorm as (_ & _ & -> & -> & _).
  pose proof (apply_direction_wall_in_bounds xmax ymax d _
                (Hb : in_bounds xmax ymax (set_direction (Some d) s))) as [Hx1 Hy1].
  destruct (apply_direction_body xmax ymax "wall" d (set_direction (Some d) s))
    as (Ebx & Eby & _).
  eapply advance_body_Forall; [exact Hadv | exact Hx1 | | exact Hy1 |].
  - by rewrite Ebx.
  - by rewrite Eby.
Qed.

Lemma step_snake_wall_ok (xmax ymax : Z) (occ : ndarray) (r : nat) (w : Snake) :
  has_shape occ (xmax + 1) (ymax + 1) -> snake_on_lattice xmax ymax w ->
  exists w' occ', step_snake xmax ymax "wall" occ r w = Ok (w', occ') /\
    has_shape occ' (xmax + 1) (ymax + 1) /\ snake_on_lattice xmax ymax w'.
Proof.
  intros Hsh Hw. pose proof Hw as (Hb & Hne & Hlen & Hlx & Hly).
  unfold step_snake.
  destruct (getitem1_last _ _ Hne Hlx) as (tx & -> & Htx). simpl.
  destruct (getitem1_last (lineypos w) (fun y => 0 <= y <= ymax)) as (ty & -> & Hty);
    [by destruct (lineypos w), (linexpos w) | done |]. simpl.
  destruct (setitem_in_range occ (xmax + 1) (ymax + 1) tx ty false Hsh)
    as (occ1 & -> & Hsh1); [lia | lia |]. simpl.
  destruct (move_wall_on_lattice xmax ymax occ1 r w Hsh1 Hw) as (w' & -> & Hw'). simpl.
  pose proof Hw' as ([Hx' Hy'] & _ & Hlen' & Hlx' & Hly').
  destruct (trapped w'); simpl; [by eauto |].
  destruct (setitem_in_range occ1 (xmax + 1) (ymax + 1) (xpos w') (ypos w') true Hsh1)
    as (occ2 & -> & Hsh2); [lia | lia |]. simpl.
  destruct (setitem_fancy_in_range (linexpos w') (lineypos w') occ2
              (xmax + 1) (ymax + 1) true Hsh2 Hlen') as (occ3 & -> & Hsh3).
  - eapply Forall_impl; [exact Hlx' |]. simpl. intros; lia.
  - eapply Forall_impl; [exact Hly' |]. simpl. intros; lia.
  - simpl. eauto.
Qed.

Lemma step_snakes_wall_ok (xmax ymax : Z) (rand : nat -> nat) (ws : list Snake)
    (i : nat) (occ : ndarray) :
  has_shape occ (xmax + 1) (ymax + 1) -> Forall (snake_on_lattice xmax ymax) ws ->
  exists ws' occ', step_snakes xmax ymax "wall" rand i ws occ = Ok (ws', occ') /\
    has_shape occ' (xmax + 1) (ymax + 1) /\ Forall (snake_on_lattice xmax ymax) ws'.
Proof.
  intros Hsh Hws. revert i occ Hsh.
  induction Hws as [| w ws Hw _ IH]; intros i occ Hsh; simpl.
  - eauto.
  - destruct (step_snake_wall_ok xmax ymax occ (rand i) w Hsh Hw)
      as (w' & occ1 & -> & Hsh1 & Hw'). simpl.
    destruct (IH (S i) occ1 Hsh1) as (ws' & occ2 & -> & Hsh2 & Hws'). simpl.
    exists (w' :: ws'), occ2. split; [done |]. split; [done |]. by apply Forall_cons.
Qed.

Lemma ticks_wall_ok (rand : nat -> nat -> nat) (n j : nat) (g : Grid) :
  wall_grid_safe g -> exists g', ticks rand j n g = Ok g' /\ wall_grid_safe g'.
Proof.
  revert j g. induction n as [| n IH]; intros j g Hg; simpl; [by eauto |].
  destruct Hg as (Hbc & Hsh & Hws). unfold tick. rewrite Hbc.
  destruct (step_snakes_wall_ok (xmax g) (ymax g) (rand j) (snakes g) 0 (occupied g) Hsh Hws)
    as (ws' & occ' & -> & Hsh' & Hws'). simpl.
  apply IH. by split.
Qed.

(** Under the wall policy, with every snake on the lattice, [Grid.go]
    returns: no index leaves the occupancy array. *)
Lemma go_wall_ok (rand : nat -> nat -> nat) (g : Grid) :
  wall_grid_safe g -> exists g', go rand g = Ok g' /\ wall_grid_safe g'.
Proof.
  intros Hg. unfold go. destruct (all_trapped g); simpl; [by eauto |].
  by apply ticks_wall_ok.
Qed.

(** A run of a wall grid from its construction, with every snake on the
    lattice, returns. *)
Lemma run_wall_ok (ws : list Snake) (gridsize : Z * Z) (n : Z)
    (rand : nat -> nat -> nat) (g : Grid) :
  Grid_init ws gridsize "wall" n = Ok g ->
  Forall (snake_on_lattice (fst gridsize) (snd gridsize)) ws ->
  exists g', go rand g = Ok g'.
Proof.
  intros Hg Hws.
  destruct (Grid_init_shape _ _ _ _ _ Hg) as [Hsh Hsn].
  assert (Hok : wall_grid_safe g).
  { unfold Grid_init in Hg. inv_bind Hg. inv_bind Hg. inversion Hg; subst g.
    simpl in *. by split. }
  destruct (go_wall_ok rand g Hok) as (g' & Hg' & _). eauto.
Qed.

(** ** The claims at concrete inputs *)

Lemma centre_occupied_shape : has_shape centre_occupied (2 + 1) (2 + 1).
Proof. split; [reflexivity | repeat constructor]. Defined.

Lemma C6_wall_disallowed_iff_witness :
  exists dis, disallowed_directions 2 2 "wall" centre_occupied blocker_east = Ok dis /\
    (north ∈ dis <->
     ypos blocker_east = 2 \/
     getitem centre_occupied (xpos blocker_east) (ypos blocker_east + 1) = Ok true).
Proof.
  destruct (C6_wall_disallowed_iff 2 2 centre_occupied blocker_east)
    as (dis & Hdis & Hn & _).
  - exact centre_occupied_shape.
  - unfold in_bounds. simpl. lia.
  - exists dis. split; [exact Hdis | exact Hn].
Defined.

Lemma C7_wall_containment_witness :
  exists s', moves 2 2 "wall" [(centre_occupied, 0%nat); (centre_occupied, 1%nat)]
               blocker_east = Ok s' /\
    in_bounds 2 2 s'.
Proof.
  apply (C7_wall_containment 2 2).
  - repeat constructor.
  - unfold in_bounds. simpl. lia.
Defined.

Lemma C8_body_length_witness :
  exists s', moves 20 20 "periodic" [(initial_occupancy [snec] (20, 20), 0%nat)]
               (Snake_init (5, 5) "bo" "b" north 5) = Ok s' /\
    Z.of_nat (length (linexpos s')) = 5 /\ Z.of_nat (length (lineypos s')) = 5.
Proof.
  eexists. split; [vm_compute; reflexivity |].
  refine (proj2 (proj2 (C8_body_length (5, 5) "bo" "b" north 5 20 20 "periodic"
            [(initial_occupancy [snec] (20, 20), 0%nat)] _ _ _))).
  - lia.
  - vm_compute. reflexivity.
Defined.

Lemma C10_untrapped_move_changes_head_witness :
  exists s', move 10 10 "periodic" (initial_occupancy [right_edge_snake] (10, 10)) 1
               right_edge_snake = Ok s' /\
    trapped s' = trapped right_edge_snake /\
    (xpos s', ypos s') <> (xpos right_edge_snake, ypos right_edge_snake).
Proof.
  apply (C10_untrapped_move_changes_head 10 10 "periodic"
           (initial_occupancy [right_edge_snake] (10, 10)) 1 right_edge_snake
           {[north; east; south]}).
  - right. reflexivity.
  - lia.
  - lia.
  - vm_compute. reflexivity.
  - vm_compute. lia.
Defined.

Lemma C1_periodic_wrap_witness :
  exists s', move 10 10 "periodic" (initial_occupancy [right_edge_snake] (10, 10)) 1
               right_edge_snake = Ok s' /\
    direction s' = Some east /\ xpos s' = 1.
Proof.
  destruct (C1_periodic_wrap 10 10 (initial_occupancy [right_edge_snake] (10, 10)) 1
              right_edge_snake {[north; east; south]} east)
    as (s' & Hm & Hd & _ & He & _).
  - lia.
  - lia.
  - vm_compute. reflexivity.
  - vm_compute. reflexivity.
  - exists s'. split; [exact Hm |]. split; [exact Hd |]. apply He; reflexivity.
Defined.

Lemma C9_unknown_policy_accepted_witness :
  exists g, Grid_init [snec; snek; sneck] (20, 20) "wall" 400 = Ok g /\
    Grid_init [snec; snek; sneck] (20, 20) "torus" 400 = Ok (set_bc "torus" g) /\
    exists s', move (xmax g) (ymax g) "torus" (occupied g) 0 snec = Ok s' /\
      trapped s' = trapped snec /\ xpos s' = xpos snec /\ ypos s' = ypos snec.
Proof.
  eexists. split; [vm_compute; reflexivity |].
  match goal with
  | |- Grid_init _ _ _ _ = Ok (set_bc _ ?g) /\ _ =>
      destruct (C9_unknown_policy_accepted [snec; snek; sneck] (20, 20) "torus" 400
                  g (occupied g) 0 snec) as (Hi & _ & Hm)
  end.
  - discriminate.
  - discriminate.
  - vm_compute. reflexivity.
  - unfold in_bounds. simpl. lia.
  - split; [exact Hi | exact Hm].
Defined.

(** * Further properties of the code *)

(** ** The constructor of [Snake] *)






(** ** Reading back what was written to the occupancy array *)

Lemma getitem_setitem_eq (occ occ' : ndarray) (i j : Z) (v : bool) :
  setitem occ i j v = Ok occ' -> getitem occ' i j = Ok v.
Proof.
  unfold setitem, getitem. intros H. inv_bind H.
  destruct (occ !! v0) as [row|] eqn:Hrow; [| discriminate].
  inv_bind H. inversion H; subst occ'.
  rewrite length_insert, Hv. simpl.
  rewrite list_lookup_insert_eq by (by eapply lookup_lt_Some).
  rewrite length_insert, Hv0. simpl.
  by rewrite list_lookup_insert_eq by (by eapply norm_index_lt).
Qed.

Lemma getitem_setitem_true (occ occ' : ndarray) (i j a b : Z) :
  setitem occ i j true = Ok occ' ->
  getitem occ a b = Ok true -> getitem occ' a b = Ok true.
Proof.
  unfold setitem, getitem. intros H Hg. inv_bind H.
  destruct (occ !! v) as [row|] eqn:Hrow; [| discriminate].
  inv_bind H. inversion H; subst occ'.
  inv_bind Hg. rewrite length_insert, Hv1. simpl.
  destruct (occ !! v1) as [rowa|] eqn:Hrowa; [| discriminate].
  inv_bind Hg.
  destruct (decide (v = v1)) as [<- | Hne].
  - rewrite list_lookup_insert_eq by (by eapply lookup_lt_Some).
    rewrite Hrow in Hrowa. inversion Hrowa; subst rowa.
    rewrite length_insert, Hv2. simpl.
    destruct (decide (v0 = v2)) as [<- | Hne].
    + by rewrite list_lookup_insert_eq by (by eapply norm_index_lt).
    + by rewrite list_lookup_insert_ne.
  - rewrite list_lookup_insert_ne, Hrowa, Hv2 by done. done.
Qed.

Lemma setitems_true_mono (ps : list (Z * Z)) (occ occ' : ndarray) (a b : Z) :
  setitems occ ps true = Ok occ' ->
  getitem occ a b = Ok true -> getitem occ' a b = Ok true.
Proof.
  revert occ. induction ps as [| [i j] ps IH]; intros occ H Hg; simpl in H.
  - by inversion H; subst.
  - inv_bind H. eapply IH; [done |]. by eapply getitem_setitem_true.
Qed.

Lemma setitems_true_marks (ps : list (Z * Z)) (occ occ' : ndarray) (x y : Z) :
  setitems occ ps true = Ok occ' -> (x, y) ∈ ps -> getitem occ' x y = Ok true.
Proof.
  revert occ. induction ps as [| [i j] ps IH]; intros occ H Hin; simpl in H.
  - by apply elem_of_nil in Hin.
  - inv_bind H. apply elem_of_cons in Hin as [[= -> ->] | Hin].
    + eapply setitems_true_mono; [done |]. by eapply getitem_setitem_eq.
    + by eapply IH.
Qed.

Lemma setitem_fancy_true_mono (occ occ' : ndarray) (xs ys : list Z) (a b : Z) :
  setitem_fancy occ xs ys true = Ok occ' ->
  getitem occ a b = Ok true -> getitem occ' a b = Ok true.
Proof.
  unfold setitem_fancy. intros H. inv_bind H. by eapply setitems_true_mono.
Qed.

Lemma setitem_fancy_true_marks (occ occ' : ndarray) (xs ys : list Z) (k : nat) (x y : Z) :
  setitem_fancy occ xs ys true = Ok occ' -> length xs = length ys ->
  xs !! k = Some x -> ys !! k = Some y -> getitem occ' x y = Ok true.
Proof.
  unfold setitem_fancy, broadcast. intros H Hlen Hx Hy.
  rewrite Hlen, Nat.eqb_refl in H. simpl in H.
  eapply setitems_true_marks; [done |].
  apply list_elem_of_lookup. exists k. by apply lookup_zip_Some.
Qed.

(** ** The constructor of [Grid] *)

Lemma mark_snake_mono (occ occ' : ndarray) (w : Snake) (a b : Z) :
  mark_snake occ w = Ok occ' ->
  getitem occ a b = Ok true -> getitem occ' a b = Ok true.
Proof.
  unfold mark_snake. intros H Hg. inv_bind H.
  eapply setitem_fancy_true_mono; [done |]. by eapply getitem_setitem_true.
Qed.

Lemma mark_snakes_mono (ws : list Snake) (occ occ' : ndarray) (a b : Z) :
  mark_snakes occ ws = Ok occ' ->
  getitem occ a b = Ok true -> getitem occ' a b = Ok true.
Proof.
  revert occ. induction ws as [| w ws IH]; intros occ H Hg; simpl in H.
  - by inversion H; subst.
  - inv_bind H. eapply IH; [done |]. by eapply mark_snake_mono.
Qed.

Lemma mark_snakes_marks (ws : list Snake) (occ occ' : ndarray) (w : Snake) :
  mark_snakes occ ws = Ok occ' -> w ∈ ws ->
  getitem occ' (xpos w) (ypos w) = Ok true /\
  (length (linexpos w) = length (lineypos w) ->
   forall (k : nat) (x y : Z),
     linexpos w !! k = Some x -> lineypos w !! k = Some y ->
     getitem occ' x y = Ok true).
Proof.
  revert occ. induction ws as [| w0 ws IH]; intros occ H Hin; simpl in H.
  - by apply elem_of_nil in Hin.
  - inv_bind H. apply elem_of_cons in Hin as [-> | Hin]; [| by eapply IH].
    unfold mark_snake in Hv. inv_bind Hv. split.
    + eapply mark_snakes_mono; [done |].
      eapply setitem_fancy_true_mono; [done |]. by eapply getitem_setitem_eq.
    + intros Hlen k x y Hx Hy.
      eapply mark_snakes_mono; [done |].
      by eapply setitem_fancy_true_marks.
Qed.

(** X5: when the constructor of [Grid] returns, the occupancy array has
    shape (xmax + 1, ymax + 1), and the head cell and every body cell of
    every snake is marked occupied. *)
Theorem X5_Grid_init_marks (ws : list Snake) (gridsize : Z * Z) (bc : string) (n : Z)
    (g : Grid) (w : Snake) :
  Grid_init ws gridsize bc n = Ok g -> w ∈ ws ->
  has_shape (occupied g) (fst gridsize + 1) (snd gridsize + 1) /\
  getitem (occupied g) (xpos w) (ypos w) = Ok true /\
  (length (linexpos w) = length (lineypos w) ->
   forall (k : nat) (x y : Z),
     linexpos w !! k = Some x -> lineypos w !! k = Some y ->
     getitem (occupied g) x y = Ok true).
Proof.
  intros Hg Hin.
  destruct (Grid_init_shape _ _ _ _ _ Hg) as [Hsh _].
  unfold Grid_init in Hg. inv_bind Hg. inv_bind Hg. inversion Hg; subst g.
  simpl in *. split; [done |]. by eapply mark_snakes_marks.
Qed.



(** ** What a run keeps *)

Lemma kept_refl (w : Snake) : kept w w.
Proof. by repeat split. Qed.

Lemma kept_trans (w1 w2 w3 : Snake) : kept w1 w2 -> kept w2 w3 -> kept w1 w3.
Proof.
  intros (Ht & Hx & Hy) (Ht' & Hx' & Hy'). repeat split; [auto | congruence..].
Qed.

Lemma step_snake_kept (xmax ymax : Z) (bc : string) (occ occ' : ndarray) (r : nat)
    (w w' : Snake) :
  step_snake xmax ymax bc occ r w = Ok (w', occ') -> kept w w'.
Proof.
  unfold step_snake. intros H.
  inv_bind H. inv_bind H. inv_bind H. inv_bind H.
  assert (Hk : kept w v2).
  { destruct (move_lengths _ _ _ _ _ _ _ Hv2) as [Hx Hy].
    split; [| done]. by eapply move_trapped_mono. }
  destruct (trapped v2); simpl in H.
  - by inversion H; subst.
  - inv_bind H. inv_bind H. inv_bind H. by inversion H; subst.
Qed.

Lemma step_snakes_kept (xmax ymax : Z) (bc : string) (rand : nat -> nat)
    (ws ws' : list Snake) (i : nat) (occ occ' : ndarray) :
  step_snakes xmax ymax bc rand i ws occ = Ok (ws', occ') -> Forall2 kept ws ws'.
Proof.
  revert ws' i occ occ'. induction ws as [| w ws IH]; intros ws' i occ occ' H;
    simpl in H.
  - inversion H; subst. constructor.
  - inv_bind H. destruct v as [w1 occ1]. inv_bind H. destruct v as [ws2 occ2].
    inversion H; subst. constructor; [by eapply step_snake_kept | by eapply IH].
Qed.

Lemma Forall2_kept_trans (l1 l2 l3 : list Snake) :
  Forall2 kept l1 l2 -> Forall2 kept l2 l3 -> Forall2 kept l1 l3.
Proof.
  intros H. revert l3. induction H as [| x y l k Hxy _ IH]; intros l3 H';
    inversion H'; subst; constructor; [by eapply kept_trans | by apply IH].
Qed.

Lemma Forall2_kept_refl (l : list Snake) : Forall2 kept l l.
Proof. induction l; constructor; [apply kept_refl | done]. Qed.

Lemma tick_kept (rand : nat -> nat) (g g' : Grid) :
  tick rand g = Ok g' ->
  Forall2 kept (snakes g) (snakes g') /\
  xmax g' = xmax g /\ ymax g' = ymax g /\ bc g' = bc g /\ nSteps g' = nSteps g.
Proof.
  unfold tick. intros H. inv_bind H. destruct v as [ws occ].
  inversion H; subst g'. simpl. split; [| done]. by eapply step_snakes_kept.
Qed.

Lemma ticks_kept (rand : nat -> nat -> nat) (n j : nat) (g g' : Grid) :
  ticks rand j n g = Ok g' ->
  Forall2 kept (snakes g) (snakes g') /\
  xmax g' = xmax g /\ ymax g' = ymax g /\ bc g' = bc g /\ nSteps g' = nSteps g.
Proof.
  revert j g. induction n as [| n IH]; intros j g H; simpl in H.
  - inversion H; subst. split; [apply Forall2_kept_refl | done].
  - inv_bind H. apply tick_kept in Hv as (Hk & Hx & Hy & Hb & Hn).
    apply IH in H as (Hk' & Hx' & Hy' & Hb' & Hn').
    split; [by eapply Forall2_kept_trans |]. repeat split; congruence.
Qed.

(** X3: a run that returns keeps the grid size, the policy, the step
    budget and the number of snakes; snake by snake, a trapped flag that
    was set stays set and the body path keeps its length. *)
Theorem X3_go_keeps (rand : nat -> nat -> nat) (g g' : Grid) :
  go rand g = Ok g' ->
  xmax g' = xmax g /\ ymax g' = ymax g /\ bc g' = bc g /\ nSteps g' = nSteps g /\
  length (snakes g') = length (snakes g) /\
  forall (i : nat) (w : Snake), snakes g !! i = Some w ->
    exists w', snakes g' !! i = Some w' /\
      (trapped w = true -> trapped w' = true) /\
      length (linexpos w') = length (linexpos w) /\
      length (lineypos w') = length (lineypos w).
Proof.
  intros H.
  assert (Hk : Forall2 kept (snakes g) (snakes g') /\
               xmax g' = xmax g /\ ymax g' = ymax g /\ bc g' = bc g /\
               nSteps g' = nSteps g).
  { unfold go in H. destruct (all_trapped g); simpl in H.
    - inversion H; subst. split; [apply Forall2_kept_refl | done].
    - by eapply ticks_kept. }
  destruct Hk as (Hk & Hx & Hy & Hb & Hn).
  repeat split; try done.
  - symmetry. by eapply Forall2_length.
  - intros i w Hw. destruct (Forall2_lookup_l _ _ _ _ _ Hk Hw) as (w' & Hw' & Hkw).
    exists w'. split; [done |]. exact Hkw.
Qed.

(** X4: a run that returns has executed no tick when every snake was
    already trapped (in particular when there is no snake), and exactly
    nSteps ticks otherwise (none for a budget nSteps <= 0), whether or
    not the snakes become trapped on the way. *)
Theorem X4_go_tick_count (rand : nat -> nat -> nat) (g g' : Grid) :
  go rand g = Ok g' ->
  (all_trapped g = true -> g' = g) /\
  (all_trapped g = false -> pauses g' = (pauses g + Z.to_nat (nSteps g))%nat) /\
  (snakes g = [] -> g' = g) /\
  (nSteps g <= 0 -> g' = g).
Proof.
  intros H. unfold go in H. split_and!.
  - intros Ht. rewrite Ht in H. simpl in H. by inversion H.
  - intros Ht. rewrite Ht in H. simpl in H. by apply ticks_pauses in H.
  - intros Hs. unfold all_trapped in H. rewrite Hs in H. simpl in H. by inversion H.
  - intros Hn. replace (Z.to_nat (nSteps g)) with 0%nat in H by lia.
    destruct (all_trapped g); simpl in H; by inversion H.
Qed.

(** ** One call of [move] under the wall policy *)

Lemma wall_allowed_spec (xmax ymax : Z) (occ : ndarray) (s : Snake) :
  has_shape occ (xmax + 1) (ymax + 1) -> in_bounds xmax ymax s ->
  exists a, allowed_directions xmax ymax "wall" occ s = Ok a /\
    forall d, d ∈ a <-> ~ blocked_wall xmax ymax occ s d.
Proof.
  intros Hsh Hb.
  destruct (wall_disallowed_spec xmax ymax occ s Hsh Hb) as (dis & Hdis & Hn & He & Hs & Hw).
  exists (all_directions ∖ dis). split.
  - unfold allowed_directions. by rewrite Hdis.
  - intros d. rewrite elem_of_difference. unfold all_directions, blocked_wall.
    destruct d; rewrite <- ?Hn, <- ?He, <- ?Hs, <- ?Hw;
      (split; [tauto | intros Hd; split; [set_solver | done]]).
Qed.

Lemma wall_free_cell (xmax ymax : Z) (occ : ndarray) (s : Snake) (d : Direction) :
  has_shape occ (xmax + 1) (ymax + 1) -> in_bounds xmax ymax s ->
  ~ blocked_wall xmax ymax occ s d ->
  in_bounds xmax ymax (apply_direction xmax ymax "wall" d s) /\
  xpos (apply_direction xmax ymax "wall" d s) = xpos s + fst (heading d) /\
  ypos (apply_direction xmax ymax "wall" d s) = ypos s + snd (heading d) /\
  getitem occ (xpos s + fst (heading d)) (ypos s + snd (heading d)) = Ok false.
Proof.
  intros Hsh [Hx Hy] Hfree. unfold blocked_wall in Hfree.
  assert (Hcell : exists b, getitem occ (xpos s + fst (heading d))
                              (ypos s + snd (heading d)) = Ok b).
  { eapply getitem_in_range; [done | |]; destruct d; simpl; lia. }
  destruct Hcell as (b & Hcell).
  assert (b = false) as ->.
  { destruct b; [| done]. exfalso. apply Hfree.
    destruct d; simpl in Hcell; right;
      rewrite <- Hcell; f_equal; lia. }
  unfold in_bounds, apply_direction.
  destruct d; simpl in *; zbool; simpl; repeat split; try lia;
    try (rewrite <- Hcell; f_equal; lia); exfalso; apply Hfree; left; lia.
Qed.

(** A call under the wall policy that finds a direction allowed: the
    step it takes. *)
Lemma wall_move_step (xmax ymax : Z) (occ : ndarray) (r : nat) (s : Snake)
    (allowed : gset Direction) :
  has_shape occ (xmax + 1) (ymax + 1) -> in_bounds xmax ymax s ->
  allowed_directions xmax ymax "wall" occ s = Ok allowed ->
  size allowed <> 0%nat ->
  exists s' d, move xmax ymax "wall" occ r s = Ok s' /\
    direction s' = Some d /\ ~ blocked_wall xmax ymax occ s d /\
    xpos s' = xpos s + fst (heading d) /\ ypos s' = ypos s + snd (heading d) /\
    in_bounds xmax ymax s' /\ trapped s' = trapped s /\
    getitem occ (xpos s') (ypos s') = Ok false.
Proof.
  intros Hsh Hb Ha Hsz.
  destruct (wall_allowed_spec xmax ymax occ s Hsh Hb) as (a & Ha' & Hspec).
  rewrite Ha in Ha'. inversion Ha'; subst a.
  destruct (allowed_nonempty_choice allowed r Hsz) as (d & Hd).
  assert (Hfree : ~ blocked_wall xmax ymax occ s d)
    by (apply Hspec; by eapply random_choice_allowed).
  destruct (wall_free_cell xmax ymax occ s d Hsh Hb Hfree) as ([Hx1 Hy1] & Ex & Ey & Hcell).
  destruct (move_step xmax ymax "wall" occ r s allowed d Ha Hd)
    as (s' & Hs' & Hx' & Hy' & Hdir & Ht); [lia | lia |].
  rewrite normalized_in_bounds in Hx', Hy' by lia.
  exists s', d. rewrite Hx', Hy', Ex, Ey.
  split_and!; try done.
  unfold in_bounds. rewrite Hx', Hy'. done.
Qed.

(** X9: under the wall policy, for a head on the lattice and an occupancy
    array of the grid's shape, a call of [move] that finds a direction
    allowed steps the head by exactly one cell in the drawn direction,
    which is not blocked; the cell it enters is on the lattice and was
    marked free. *)
Theorem X9_wall_move_to_free_cell (xmax ymax : Z) (occ : ndarray) (r : nat) (s : Snake)
    (allowed : gset Direction) :
  has_shape occ (xmax + 1) (ymax + 1) -> in_bounds xmax ymax s ->
  allowed_directions xmax ymax "wall" occ s = Ok allowed ->
  size allowed <> 0%nat ->
  exists s' d, move xmax ymax "wall" occ r s = Ok s' /\
    direction s' = Some d /\ ~ blocked_wall xmax ymax occ s d /\
    xpos s' = xpos s + fst (heading d) /\ ypos s' = ypos s + snd (heading d) /\
    in_bounds xmax ymax s' /\ trapped s' = trapped s /\
    getitem occ (xpos s') (ypos s') = Ok false.
Proof. apply wall_move_step. Qed.

(** X8: under the wall policy, for a head on the lattice and an occupancy
    array of the grid's shape, [move] returns; it sets the trapped flag
    and changes nothing else exactly when all four directions are
    blocked, and otherwise leaves the flag as it was. *)
Theorem X8_wall_trapped_iff_blocked (xmax ymax : Z) (occ : ndarray) (r : nat) (s : Snake) :
  has_shape occ (xmax + 1) (ymax + 1) -> in_bounds xmax ymax s ->
  exists s', move xmax ymax "wall" occ r s = Ok s' /\
    ((forall d, blocked_wall xmax ymax occ s d) -> s' = set_trapped true s) /\
    ((exists d, ~ blocked_wall xmax ymax occ s d) ->
     trapped s' = trapped s /\ (xpos s', ypos s') <> (xpos s, ypos s)).
Proof.
  intros Hsh Hb.
  destruct (wall_allowed_spec xmax ymax occ s Hsh Hb) as (a & Ha & Hspec).
  destruct (Nat.eqb_spec (size a) 0) as [Hz | Hz].
  - exists (set_trapped true s). split_and!.
    + unfold move. rewrite Ha. simpl. by destruct (Nat.eqb_spec (size a) 0).
    + done.
    + intros (d & Hd). apply Hspec in Hd. apply size_empty_inv in Hz. set_solver.
  - destruct (wall_move_step xmax ymax occ r s a Hsh Hb Ha Hz)
      as (s' & d & Hs' & _ & Hfree & Hx & Hy & _ & Ht & _).
    exists s'. split_and!; [done | |].
    + intros Hall. by destruct (Hfree (Hall d)).
    + intros _. split; [done |]. intros [= Ex Ey].
      destruct d; simpl in *; lia.
Qed.

(** ** The body path after a call of [move] *)

Lemma advance_body_eq (s s' : Snake) :
  advance_body s = Ok s' ->
  linexpos s' = delete (length (linexpos s)) (xpos s :: linexpos s) /\
  lineypos s' = delete (length (lineypos s)) (ypos s :: lineypos s).
Proof.
  unfold advance_body, np_delete, np_append. simpl length.
  rewrite !norm_index_last. simpl. intros H. by inversion H.
Qed.

Lemma apply_direction_set_direction (xmax ymax : Z) (bc : string) (d : Direction)
    (v : option Direction) (s : Snake) :
  xpos (apply_direction xmax ymax bc d (set_direction v s))
    = xpos (apply_direction xmax ymax bc d s) /\
  ypos (apply_direction xmax ymax bc d (set_direction v s))
    = ypos (apply_direction xmax ymax bc d s).
Proof.
  unfold apply_direction.
  destruct d; simpl;
    match goal with |- context [if ?c then _ else _] => destruct c end;
    simpl; split; reflexivity.
Qed.

(** After a call that draws [d], the body path is the old one shifted by
    one cell, with the head as [apply_direction] left it (before the
    final modulo) in front. *)
Lemma move_body (xmax ymax : Z) (bc : string) (occ : ndarray) (r : nat)
    (s s' : Snake) (a : gset Direction) (d : Direction) :
  allowed_directions xmax ymax bc occ s = Ok a ->
  random_choice (elements a) r = Ok d ->
  move xmax ymax bc occ r s = Ok s' ->
  linexpos s' = delete (length (linexpos s))
                  (xpos (apply_direction xmax ymax bc d s) :: linexpos s) /\
  lineypos s' = delete (length (lineypos s))
                  (ypos (apply_direction xmax ymax bc d s) :: lineypos s).
Proof.
  intros Ha Hd H. unfold move in H. rewrite Ha in H. simpl in H.
  destruct (Nat.eqb_spec (size a) 0) as [Hz|Hz];
    [by apply random_choice_size in Hd |].
  rewrite Hd in H. simpl in H. inv_bind H.
  apply normalize_head_spec in H as (_ & _ & -> & -> & _).
  apply advance_body_eq in Hv as [-> ->].
  destruct (apply_direction_body xmax ymax bc d (set_direction (Some d) s))
    as (-> & -> & _).
  destruct (apply_direction_set_direction xmax ymax bc d (Some d) s) as [-> ->].
  done.
Qed.

Lemma shifted_head (x : Z) (l : list Z) :
  l <> [] -> delete (length l) (x :: l) !! 0%nat = Some x.
Proof.
  intros Hl. rewrite list_lookup_delete_lt; [done |].
  destruct l; simpl; [done | lia].
Qed.

Lemma shifted_tail (x : Z) (l : list Z) (k : nat) :
  (S k < length l)%nat -> delete (length l) (x :: l) !! S k = l !! k.
Proof. intros Hk. by rewrite list_lookup_delete_lt. Qed.

(** X10: under the wall policy, for a head on the lattice, an occupancy
    array of the grid's shape and a non-empty body path, a call of [move]
    that finds a direction allowed leaves the new head as the first
    element of the body path and moves every other kept element one
    place back (the last one is dropped). *)
Theorem X10_wall_body_follows_head (xmax ymax : Z) (occ : ndarray) (r : nat) (s : Snake)
    (allowed : gset Direction) :
  has_shape occ (xmax + 1) (ymax + 1) -> in_bounds xmax ymax s ->
  linexpos s <> [] -> lineypos s <> [] ->
  allowed_directions xmax ymax "wall" occ s = Ok allowed ->
  size allowed <> 0%nat ->
  exists s', move xmax ymax "wall" occ r s = Ok s' /\
    linexpos s' !! 0%nat = Some (xpos s') /\
    lineypos s' !! 0%nat = Some (ypos s') /\
    forall k : nat,
      ((S k < length (linexpos s))%nat -> linexpos s' !! S k = linexpos s !! k) /\
      ((S k < length (lineypos s))%nat -> lineypos s' !! S k = lineypos s !! k).
Proof.
  intros Hsh Hb Hlx Hly Ha Hsz.
  destruct (allowed_nonempty_choice allowed r Hsz) as (d & Hd).
  pose proof (apply_direction_wall_in_bounds xmax ymax d s Hb) as [Hx1 Hy1].
  destruct (move_step xmax ymax "wall" occ r s allowed d Ha Hd)
    as (s' & Hs' & Hx' & Hy' & _); [lia | lia |].
  rewrite normalized_in_bounds in Hx', Hy' by lia.
  destruct (move_body _ _ _ _ _ _ _ _ _ Ha Hd Hs') as [Ex Ey].
  exists s'. split; [done |]. rewrite Ex, Ey, Hx', Hy'.
  split; [by apply shifted_head |]. split; [by apply shifted_head |].
  intros k. split; intros Hk; by apply shifted_tail.
Qed.

(** ** The head after the final modulo *)

Lemma normalized_range (m v : Z) : 0 < m -> 0 <= normalized m v <= m.
Proof.
  intros Hm. unfold normalized. destruct (Z.eqb_spec v m) as [-> | _]; [lia |].
  pose proof (Z.mod_pos_bound v m Hm). lia.
Qed.

(** X11: on a grid with xmax > 0 and ymax > 0, whatever the policy
    string and wherever the head was, a call of [move] that finds a
    direction allowed returns with the head on the lattice,
    0 <= x <= xmax and 0 <= y <= ymax. *)
Theorem X11_moved_head_on_lattice (xmax ymax : Z) (bc : string) (occ : ndarray)
    (r : nat) (s : Snake) (allowed : gset Direction) :
  0 < xmax -> 0 < ymax ->
  allowed_directions xmax ymax bc occ s = Ok allowed ->
  size allowed <> 0%nat ->
  exists s', move xmax ymax bc occ r s = Ok s' /\ in_bounds xmax ymax s'.
Proof.
  intros Hx Hy Ha Hsz.
  destruct (allowed_nonempty_choice allowed r Hsz) as (d & Hd).
  destruct (move_step xmax ymax bc occ r s allowed d Ha Hd)
    as (s' & Hs' & Hx' & Hy' & _); [lia | lia |].
  exists s'. split; [done |]. unfold in_bounds. rewrite Hx', Hy'.
  split; by apply normalized_range.
Qed.

(** X12: under the periodic policy, for a head on the lattice, a call of
    [move] that draws a direction [d] away from the edge that limits it
    (y < ymax for north, x < xmax for east, y > 0 for south, x > 0 for
    west) steps the head by exactly one cell in direction [d], and the
    new head is the first element of a non-empty body path. *)
Theorem X12_periodic_interior_step (xmax ymax : Z) (occ : ndarray) (r : nat) (s : Snake)
    (allowed : gset Direction) (d : Direction) :
  in_bounds xmax ymax s ->
  linexpos s <> [] -> lineypos s <> [] ->
  allowed_directions xmax ymax "periodic" occ s = Ok allowed ->
  random_choice (elements allowed) r = Ok d ->
  match d with
  | north => ypos s < ymax
  | east => xpos s < xmax
  | south => 0 < ypos s
  | west => 0 < xpos s
  end ->
  exists s', move xmax ymax "periodic" occ r s = Ok s' /\
    direction s' = Some d /\
    xpos s' = xpos s + fst (heading d) /\ ypos s' = ypos s + snd (heading d) /\
    in_bounds xmax ymax s' /\
    linexpos s' !! 0%nat = Some (xpos s') /\ lineypos s' !! 0%nat = Some (ypos s').
Proof.
  intros [Hx Hy] Hlx Hly Ha Hd Hint.
  assert (Hstep : xpos (apply_direction xmax ymax "periodic" d s) = xpos s + fst (heading d) /\
                  ypos (apply_direction xmax ymax "periodic" d s) = ypos s + snd (heading d))
    by (unfold apply_direction; destruct d; simpl; split; lia).
  destruct Hstep as [Ex Ey].
  assert (Hin : 0 <= xpos s + fst (heading d) <= xmax /\
                0 <= ypos s + snd (heading d) <= ymax)
    by (destruct d; simpl; lia).
  destruct (move_step xmax ymax "periodic" occ r s allowed d Ha Hd)
    as (s' & Hs' & Hx' & Hy' & Hdir & _); [lia | lia |].
  rewrite Ex in Hx'. rewrite Ey in Hy'.
  rewrite normalized_in_bounds in Hx', Hy' by lia.
  destruct (move_body _ _ _ _ _ _ _ _ _ Ha Hd Hs') as [Bx By].
  exists s'. split_and!; try done.
  - unfold in_bounds. rewrite Hx', Hy'. done.
  - rewrite Bx, Hx', Ex. by apply shifted_head.
  - rewrite By, Hy', Ey. by apply shifted_head.
Qed.


(** ** Legality under the periodic policy *)

Lemma periodic_check (at_edge inside : bool) (wrapped direct : result bool) (b : bool) :
  (if at_edge then inside = false /\ wrapped = Ok b
   else inside = true /\ direct = Ok b) ->
  or_else_r (and_then at_edge wrapped) (and_then inside direct) = Ok b.
Proof. destruct at_edge; intros [-> ->]; simpl; by destruct b. Qed.

Lemma pymod_succ_bind (m : Z) (f : Z -> result bool) :
  2 <= m -> (j ← pymod (m + 1) m; f j) = f 1.
Proof. intros Hm. by rewrite pymod_succ_max. Qed.

Lemma pymod_pred_bind (m : Z) (f : Z -> result bool) :
  2 <= m -> (j ← pymod (0 - 1) m; f j) = f (m - 1).
Proof. intros Hm. by rewrite pymod_pred_zero. Qed.

(** X13: under the periodic policy on a grid with xmax >= 2 and
    ymax >= 2, for a head on the lattice and an occupancy array of the
    grid's shape, the legality check returns, and a direction is
    disallowed exactly when the one cell it reads is marked occupied:
    the adjacent cell, or, for a head on the edge that limits the
    direction, the cell one past the opposite edge (index 1, or
    max - 1).  Being on an edge never disallows a direction by itself. *)
Theorem X13_periodic_disallowed_iff (xmax ymax : Z) (occ : ndarray) (s : Snake) :
  has_shape occ (xmax + 1) (ymax + 1) -> in_bounds xmax ymax s ->
  2 <= xmax -> 2 <= ymax ->
  exists dis, disallowed_directions xmax ymax "periodic" occ s = Ok dis /\
    (north ∈ dis <->
     getitem occ (xpos s) (if ypos s =? ymax then 1 else ypos s + 1) = Ok true) /\
    (east ∈ dis <->
     getitem occ (if xpos s =? xmax then 1 else xpos s + 1) (ypos s) = Ok true) /\
    (south ∈ dis <->
     getitem occ (xpos s) (if ypos s =? 0 then ymax - 1 else ypos s - 1) = Ok true) /\
    (west ∈ dis <->
     getitem occ (if xpos s =? 0 then xmax - 1 else xpos s - 1) (ypos s) = Ok true).
Proof.
  intros Hsh [Hx Hy] Hxm Hym.
  destruct (getitem_in_range occ (xmax + 1) (ymax + 1) (xpos s)
              (if ypos s =? ymax then 1 else ypos s + 1) Hsh) as (bn & Hbn);
    [lia | destruct (Z.eqb_spec (ypos s) ymax); lia |].
  destruct (getitem_in_range occ (xmax + 1) (ymax + 1)
              (if xpos s =? xmax then 1 else xpos s + 1) (ypos s) Hsh) as (be & Hbe);
    [destruct (Z.eqb_spec (xpos s) xmax); lia | lia |].
  destruct (getitem_in_range occ (xmax + 1) (ymax + 1) (xpos s)
              (if ypos s =? 0 then ymax - 1 else ypos s - 1) Hsh) as (bs & Hbs);
    [lia | destruct (Z.eqb_spec (ypos s) 0); lia |].
  destruct (getitem_in_range occ (xmax + 1) (ymax + 1)
              (if xpos s =? 0 then xmax - 1 else xpos s - 1) (ypos s) Hsh) as (bw & Hbw);
    [destruct (Z.eqb_spec (xpos s) 0); lia | lia |].
  unfold disallowed_directions. simpl String.eqb. cbv iota.
  rewrite (periodic_check (ypos s =? ymax) _ _ _ bn); cycle 1.
  { revert Hbn. destruct (Z.eqb_spec (ypos s) ymax) as [E | E]; intros Hbn; cbv iota.
    - split; [apply Z.ltb_ge; lia |]. rewrite E. by rewrite pymod_succ_bind.
    - split; [apply Z.ltb_lt; lia | done]. }
  rewrite (periodic_check (xpos s =? xmax) _ _ _ be); cycle 1.
  { revert Hbe. destruct (Z.eqb_spec (xpos s) xmax) as [E | E]; intros Hbe; cbv iota.
    - split; [apply Z.ltb_ge; lia |]. rewrite E.
      by rewrite (pymod_succ_bind xmax (fun i => getitem occ i (ypos s))).
    - split; [apply Z.ltb_lt; lia | done]. }
  rewrite (periodic_check (ypos s =? 0) _ _ _ bs); cycle 1.
  { revert Hbs. destruct (Z.eqb_spec (ypos s) 0) as [E | E]; intros Hbs; cbv iota.
    - split; [apply Z.ltb_ge; lia |]. rewrite E. by rewrite pymod_pred_bind.
    - split; [apply Z.ltb_lt; lia | done]. }
  rewrite (periodic_check (xpos s =? 0) _ _ _ bw); cycle 1.
  { revert Hbw. destruct (Z.eqb_spec (xpos s) 0) as [E | E]; intros Hbw; cbv iota.
    - split; [apply Z.ltb_ge; lia |]. rewrite E.
      by rewrite (pymod_pred_bind xmax (fun i => getitem occ i (ypos s))).
    - split; [apply Z.ltb_lt; lia | done]. }
  simpl. eexists. split; [reflexivity |].
  rewrite !disallowed_set_elem, Hbn, Hbe, Hbs, Hbw.
  repeat split; congruence.
Qed.

(** X14: under the periodic policy on a grid with ymax = 0, a call of
    [move] for a snake with y = 0 raises [ZeroDivisionError]: the first
    legality check takes (y + 1) modulo 0. *)
Theorem X14_periodic_zero_division (xmax : Z) (occ : ndarray) (r : nat) (s : Snake) :
  ypos s = 0 ->
  move xmax 0 "periodic" occ r s = Raise ZeroDivisionError.
Proof.
  intros Hy. unfold move, allowed_directions, disallowed_directions.
  simpl String.eqb. cbv iota. rewrite Hy. reflexivity.
Qed.

(** ** One snake's step in [Grid.go] *)

Lemma mirror_edges_mono (xmax ymax : Z) (occ occ' : ndarray) (w : Snake) (a b : Z) :
  mirror_edges xmax ymax occ w = Ok occ' ->
  getitem occ a b = Ok true -> getitem occ' a b = Ok true.
Proof.
  unfold mirror_edges. intros H Hg. inv_bind H.
  assert (Hv' : getitem v a b = Ok true).
  { destruct (xpos w =? xmax); [by eapply getitem_setitem_true |].
    destruct (xpos w =? 0); [by eapply getitem_setitem_true |].
    by inversion Hv; subst. }
  destruct (ypos w =? ymax); [by eapply getitem_setitem_true |].
  destruct (ypos w =? 0); [by eapply getitem_setitem_true |].
  by inversion H; subst.
Qed.

Lemma mirror_edges_marks (xmax ymax : Z) (occ occ' : ndarray) (w : Snake) :
  mirror_edges xmax ymax occ w = Ok occ' ->
  (xpos w = xmax -> getitem occ' 0 (ypos w) = Ok true) /\
  (xpos w = 0 -> getitem occ' xmax (ypos w) = Ok true) /\
  (ypos w = ymax -> getitem occ' (xpos w) 0 = Ok true) /\
  (ypos w = 0 -> getitem occ' (xpos w) ymax = Ok true).
Proof.
  unfold mirror_edges. intros H. inv_bind H.
  assert (Hx : (xpos w = xmax -> getitem v 0 (ypos w) = Ok true) /\
               (xpos w = 0 -> getitem v xmax (ypos w) = Ok true)).
  { destruct (Z.eqb_spec (xpos w) xmax) as [E | E].
    - split; intros E'; [by eapply getitem_setitem_eq |].
      replace xmax with 0 by lia. by eapply getitem_setitem_eq.
    - destruct (Z.eqb_spec (xpos w) 0) as [E0 | E0].
      + split; intros E'; [done | by eapply getitem_setitem_eq].
      + split; intros E'; done. }
  destruct Hx as [Hx1 Hx2].
  assert (Hmono : forall a b, getitem v a b = Ok true -> getitem occ' a b = Ok true).
  { intros a b Hg.
    destruct (ypos w =? ymax); [by eapply getitem_setitem_true |].
    destruct (ypos w =? 0); [by eapply getitem_setitem_true |].
    by inversion H; subst. }
  split; [auto |]. split; [auto |].
  destruct (Z.eqb_spec (ypos w) ymax) as [E | E].
  - split; intros E'; [by eapply getitem_setitem_eq |].
    replace ymax with 0 by lia. by eapply getitem_setitem_eq.
  - destruct (Z.eqb_spec (ypos w) 0) as [E0 | E0].
    + split; intros E'; [done | by eapply getitem_setitem_eq].
    + split; intros E'; done.
Qed.

(** X15: when one snake's step in [Grid.go] returns with the snake not
    trapped, the occupancy array it leaves has the new head cell and
    every cell of the new body path marked occupied; under the periodic
    policy, a head on an edge also has the cell across on the opposite
    edge marked (same y for the x edges, same x for the y edges). *)
Theorem X15_step_marks_snake (xmax ymax : Z) (bc : string) (occ occ' : ndarray)
    (r : nat) (w w' : Snake) :
  step_snake xmax ymax bc occ r w = Ok (w', occ') ->
  trapped w' = false ->
  getitem occ' (xpos w') (ypos w') = Ok true /\
  (forall (k : nat) (x y : Z),
     linexpos w' !! k = Some x -> lineypos w' !! k = Some y ->
     getitem occ' x y = Ok true) /\
  (bc = "periodic" ->
   (xpos w' = xmax -> getitem occ' 0 (ypos w') = Ok true) /\
   (xpos w' = 0 -> getitem occ' xmax (ypos w') = Ok true) /\
   (ypos w' = ymax -> getitem occ' (xpos w') 0 = Ok true) /\
   (ypos w' = 0 -> getitem occ' (xpos w') ymax = Ok true)).
Proof.
  unfold step_snake. intros H Ht.
  inv_bind H. inv_bind H. inv_bind H. inv_bind H.
  destruct (trapped v2) eqn:Htv; simpl in H.
  { inversion H; subst. congruence. }
  inv_bind H. inv_bind H. inv_bind H. inversion H; subst w' occ'. clear H.
  assert (Hmono : forall a b, getitem v4 a b = Ok true -> getitem v5 a b = Ok true).
  { intros a b Hg. destruct (String.eqb bc "periodic").
    - by eapply mirror_edges_mono.
    - by inversion Hv5; subst. }
  split_and!.
  - apply Hmono. eapply setitem_fancy_true_mono; [done |].
    by eapply getitem_setitem_eq.
  - intros k x y Hx Hy. apply Hmono.
    unfold setitem_fancy in Hv4. inv_bind Hv4.
    eapply setitems_true_marks; [done |].
    unfold broadcast in Hv6.
    destruct (Nat.eqb_spec (length (linexpos v2)) (length (lineypos v2))) as [E | E].
    + inversion Hv6; subst. apply list_elem_of_lookup. exists k.
      by apply lookup_zip_Some.
    + destruct (linexpos v2) as [| x0 [| x1 lx]] eqn:Elx;
        destruct (lineypos v2) as [| y0 [| y1 ly]] eqn:Ely;
        simpl in E; try done; inversion Hv6; subst;
        simpl in *; try done;
        destruct k as [| k]; simpl in *; simplify_eq;
        first [ by left | by destruct k ].
  - intros ->. simpl in Hv5. by apply mirror_edges_marks in Hv5.
Qed.

(** A returning call of [move] either sets the flag and changes nothing
    else, or leaves the flag as it was. *)
Lemma move_flag (xmax ymax : Z) (bc : string) (occ : ndarray) (r : nat) (s s' : Snake) :
  move xmax ymax bc occ r s = Ok s' ->
  s' = set_trapped true s \/ trapped s' = trapped s.
Proof.
  intros H. apply move_inv in H as (a & _ & [[_ ->] | (_ & d & s1 & _ & _ & Hadv & Hnorm)]).
  - by left.
  - right. apply normalize_head_spec in Hnorm as (_ & _ & _ & _ & _ & ->).
    destruct (advance_body_spec (apply_direction xmax ymax bc d (set_direction (Some d) s)))
      as (s2 & Hs2 & _ & _ & _ & Htr & _).
    rewrite Hadv in Hs2. inversion Hs2; subst s2. rewrite Htr.
    by destruct (apply_direction_body xmax ymax bc d (set_direction (Some d) s))
      as (_ & _ & -> & _).
Qed.

(** X17: when one snake's step in [Grid.go] returns with a snake newly
    trapped, the snake is otherwise unchanged (head, body path and
    direction), and the occupancy array differs from the one before only
    in that the snake's tail cell, the last cell of its body path, has
    been cleared: it is left marked free although the snake still lies
    on it. *)
Theorem X17_trapped_step_clears_tail (xmax ymax : Z) (bc : string) (occ occ' : ndarray)
    (r : nat) (w w' : Snake) :
  step_snake xmax ymax bc occ r w = Ok (w', occ') ->
  trapped w = false -> trapped w' = true ->
  w' = set_trapped true w /\
  exists tx ty,
    getitem1 (linexpos w) (-1) = Ok tx /\ getitem1 (lineypos w) (-1) = Ok ty /\
    setitem occ tx ty false = Ok occ' /\
    getitem occ' tx ty = Ok false.
Proof.
  unfold step_snake. intros H Ht Ht'.
  inv_bind H. inv_bind H. inv_bind H. inv_bind H.
  destruct (trapped v2) eqn:Htv; simpl in H.
  - inversion H; subst w' occ'. split.
    + destruct (move_flag _ _ _ _ _ _ _ Hv2) as [-> | E]; [done | congruence].
    + exists v, v0. split_and!; try done. by eapply getitem_setitem_eq.
  - inv_bind H. inv_bind H. inv_bind H. inversion H; subst. congruence.
Qed.

(** ** The main program *)



(** ** The further properties at concrete inputs *)



Lemma X3_go_keeps_witness :
  exists g g',
    Grid_init [corner_snake; blocker_east; blocker_north] (2, 2) "wall" 2 = Ok g /\
    go corner_draws g = Ok g' /\
    bc g' = bc g /\ length (snakes g') = length (snakes g).
Proof.
  do 2 eexists. split; [vm_compute; reflexivity |].
  split; [vm_compute; reflexivity |].
  match goal with
  | |- bc ?g' = bc ?g /\ _ =>
      destruct (X3_go_keeps corner_draws g g') as (_ & _ & Hb & _ & Hl & _)
  end.
  - vm_compute. reflexivity.
  - split; [exact Hb | exact Hl].
Defined.

Lemma X4_go_tick_count_witness :
  exists g g',
    Grid_init [corner_snake] (0, 0) "wall" 3 = Ok g /\
    go (const_draws 0) g = Ok g' /\
    pauses g' = (pauses g + Z.to_nat (nSteps g))%nat.
Proof.
  do 2 eexists. split; [vm_compute; reflexivity |].
  split; [vm_compute; reflexivity |].
  match goal with
  | |- pauses ?g' = (pauses ?g + _)%nat =>
      destruct (X4_go_tick_count (const_draws 0) g g') as (_ & Hp & _)
  end.
  - vm_compute. reflexivity.
  - apply Hp. reflexivity.
Defined.

Lemma X5_Grid_init_marks_witness :
  exists g, Grid_init [snec; snek; sneck] (20, 20) "wall" 400 = Ok g /\
    getitem (occupied g) (xpos snek) (ypos snek) = Ok true.
Proof.
  eexists. split; [vm_compute; reflexivity |].
  refine (proj1 (proj2 (X5_Grid_init_marks [snec; snek; sneck] (20, 20) "wall" 400
                          _ snek _ _))).
  - vm_compute. reflexivity.
  - apply elem_of_cons. right. apply elem_of_cons. left. reflexivity.
Defined.



Lemma blocker_east_in_bounds : in_bounds 2 2 blocker_east.
Proof. unfold in_bounds. simpl. lia. Defined.

Lemma X8_wall_trapped_iff_blocked_witness :
  exists s', move 2 2 "wall" centre_occupied 0 blocker_east = Ok s' /\
    ((forall d, blocked_wall 2 2 centre_occupied blocker_east d) ->
     s' = set_trapped true blocker_east) /\
    ((exists d, ~ blocked_wall 2 2 centre_occupied blocker_east d) ->
     trapped s' = trapped blocker_east /\
     (xpos s', ypos s') <> (xpos blocker_east, ypos blocker_east)).
Proof.
  apply (X8_wall_trapped_iff_blocked 2 2 centre_occupied 0 blocker_east).
  - exact centre_occupied_shape.
  - exact blocker_east_in_bounds.
Defined.

Lemma X9_wall_move_to_free_cell_witness :
  exists s' d, move 2 2 "wall" centre_occupied 0 blocker_east = Ok s' /\
    direction s' = Some d /\ ~ blocked_wall 2 2 centre_occupied blocker_east d /\
    xpos s' = xpos blocker_east + fst (heading d) /\
    ypos s' = ypos blocker_east + snd (heading d) /\
    in_bounds 2 2 s' /\ trapped s' = trapped blocker_east /\
    getitem centre_occupied (xpos s') (ypos s') = Ok false.
Proof.
  apply (X9_wall_move_to_free_cell 2 2 centre_occupied 0 blocker_east {[east; west]}).
  - exact centre_occupied_shape.
  - exact blocker_east_in_bounds.
  - vm_compute. reflexivity.
  - vm_compute. lia.
Defined.

Lemma X10_wall_body_follows_head_witness :
  exists s', move 2 2 "wall" centre_occupied 0 blocker_east = Ok s' /\
    linexpos s' !! 0%nat = Some (xpos s') /\
    lineypos s' !! 0%nat = Some (ypos s').
Proof.
  destruct (X10_wall_body_follows_head 2 2 centre_occupied 0 blocker_east {[east; west]})
    as (s' & Hm & Hx & Hy & _).
  - exact centre_occupied_shape.
  - exact blocker_east_in_bounds.
  - discriminate.
  - discriminate.
  - vm_compute. reflexivity.
  - vm_compute. lia.
  - exists s'. split; [exact Hm |]. split; [exact Hx | exact Hy].
Defined.

Lemma X11_moved_head_on_lattice_witness :
  exists s', move 10 10 "periodic" (initial_occupancy [right_edge_snake] (10, 10)) 1
               right_edge_snake = Ok s' /\
    in_bounds 10 10 s'.
Proof.
  apply (X11_moved_head_on_lattice 10 10 "periodic"
           (initial_occupancy [right_edge_snake] (10, 10)) 1 right_edge_snake
           {[north; east; south]}).
  - lia.
  - lia.
  - vm_compute. reflexivity.
  - vm_compute. lia.
Defined.

Lemma X12_periodic_interior_step_witness :
  exists s', move 10 10 "periodic" (initial_occupancy [right_edge_snake] (10, 10)) 2
               right_edge_snake = Ok s' /\
    direction s' = Some north /\ xpos s' = 10 /\ ypos s' = 6.
Proof.
  destruct (X12_periodic_interior_step 10 10
              (initial_occupancy [right_edge_snake] (10, 10)) 2 right_edge_snake
              {[north; east; south]} north)
    as (s' & Hm & Hd & Hx & Hy & _).
  - unfold in_bounds. simpl. lia.
  - discriminate.
  - discriminate.
  - vm_compute. reflexivity.
  - vm_compute. reflexivity.
  - simpl. lia.
  - exists s'. split; [exact Hm |]. split; [exact Hd |]. split; [exact Hx | exact Hy].
Defined.

Lemma X13_periodic_disallowed_iff_witness :
  exists dis,
    disallowed_directions 2 2 "periodic" centre_occupied blocker_east = Ok dis /\
    (north ∈ dis <->
     getitem centre_occupied (xpos blocker_east)
       (if ypos blocker_east =? 2 then 1 else ypos blocker_east + 1) = Ok true).
Proof.
  destruct (X13_periodic_disallowed_iff 2 2 centre_occupied blocker_east)
    as (dis & Hdis & Hn & _).
  - exact centre_occupied_shape.
  - exact blocker_east_in_bounds.
  - lia.
  - lia.
  - exists dis. split; [exact Hdis | exact Hn].
Defined.

Lemma X14_periodic_zero_division_witness :
  move 5 0 "periodic" centre_occupied 0 corner_snake = Raise ZeroDivisionError.
Proof. apply (X14_periodic_zero_division 5 centre_occupied 0 corner_snake). reflexivity. Defined.

Lemma X15_step_marks_snake_witness :
  exists w' occ',
    step_snake 10 10 "periodic" (initial_occupancy [right_edge_snake] (10, 10)) 2
      right_edge_snake = Ok (w', occ') /\
    getitem occ' (xpos w') (ypos w') = Ok true /\
    ("periodic" = "periodic" ->
     (xpos w' = 10 -> getitem occ' 0 (ypos w') = Ok true) /\
     (xpos w' = 0 -> getitem occ' 10 (ypos w') = Ok true) /\
     (ypos w' = 10 -> getitem occ' (xpos w') 0 = Ok true) /\
     (ypos w' = 0 -> getitem occ' (xpos w') 10 = Ok true)).
Proof.
  do 2 eexists. split; [vm_compute; reflexivity |].
  match goal with
  | |- getitem ?occ' (xpos ?w') _ = _ /\ _ =>
      destruct (X15_step_marks_snake 10 10 "periodic"
                  (initial_occupancy [right_edge_snake] (10, 10)) occ' 2
                  right_edge_snake w') as (Hh & _ & Hm)
  end.
  - vm_compute. reflexivity.
  - reflexivity.
  - split; [exact Hh | exact Hm].
Defined.

Lemma X17_trapped_step_clears_tail_witness :
  exists w' occ',
    step_snake 2 2 "wall"
      (initial_occupancy [corner_snake; blocker_east; blocker_north] (2, 2)) 0
      corner_snake = Ok (w', occ') /\
    w' = set_trapped true corner_snake /\
    getitem occ' 0 0 = Ok false.
Proof.
  do 2 eexists. split; [vm_compute; reflexivity |].
  match goal with
  | |- ?w' = _ /\ getitem ?occ' _ _ = _ =>
      destruct (X17_trapped_step_clears_tail 2 2 "wall"
                  (initial_occupancy [corner_snake; blocker_east; blocker_north] (2, 2))
                  occ' 0 corner_snake w') as (Hw & tx & ty & Hx & Hy & _ & Hg)
  end.
  - vm_compute. reflexivity.
  - reflexivity.
  - reflexivity.
  - split; [exact Hw |].
    vm_compute in Hx. vm_compute in Hy. inversion Hx. inversion Hy. subst. exact Hg.
Defined.
